(** * rnprobe: the Reticulum probe utility ([RNS/Utilities/rnprobe.py])

    A shallow embedding of [program_setup] and a verification of its
    probe lifecycle: address validation, path discovery polling, the
    size ceiling, receipt polling and the delivery report.

    Everything outside [rnprobe.py] (the RNS transport, the receipt that
    the transport mutates, two float builtins) is gathered in a [World];
    the program is a function of the world and of its arguments into a
    small state-and-exception monad that records every observable action
    in a trace. *)

From Stdlib Require Import ZArith NArith List String Ascii Lia Bool.
From Stdlib Require Import Strings.Byte.
From Stdlib Require Import DecimalString.
From Stdlib Require Import Floats.PrimFloat.
Import ListNotations.
Open Scope string_scope.
Open Scope Z_scope.

(** ** Python values and builtins *)

(** A [bytes] object. *)
Definition bytes := list byte.

(** A Python [str] is a [string] here: one [ascii] per character, which
    covers the code points below 256. *)

Module Py.

(** A one-character string from its code point. *)
Definition chr (n : nat) : string := String (ascii_of_nat n) EmptyString.

Definition BS : string := chr 8.    (* "\b" *)
Definition LF : string := chr 10.   (* "\n" *)
Definition CR : string := chr 13.   (* "\r" *)

(** [str(n)] for an [int]. *)
Definition str_int (n : Z) : string := NilZero.string_of_int (Z.to_int n).

(** [len(s)] for a [str]. *)
Definition len (s : string) : Z := Z.of_nat (String.length s).

(** ASCII white space, as [bytes.fromhex] skips it: space, and the
    characters 9 to 13 (tab, line feed, vertical tab, form feed,
    carriage return). *)
Definition isspace (c : ascii) : bool :=
  let n := N_of_ascii c in
  ((n =? 32) || ((9 <=? n) && (n <=? 13)))%N.

(** The value of a hexadecimal digit. *)
Definition hexval (c : ascii) : option N :=
  let n := N_of_ascii c in
  if ((48 <=? n) && (n <=? 57))%N then Some (n - 48)%N
  else if ((97 <=? n) && (n <=? 102))%N then Some (n - 87)%N
  else if ((65 <=? n) && (n <=? 70))%N then Some (n - 55)%N
  else None.

Definition ishex (c : ascii) : bool :=
  match hexval c with Some _ => true | None => false end.

(** [bytes.fromhex(s)]: two hexadecimal digits per byte, ASCII white
    space between the bytes being ignored; [None] stands for the
    [ValueError] it raises on anything else (a character that is
    neither, a digit with no partner). *)
Fixpoint fromhex (s : string) : option bytes :=
  match s with
  | EmptyString => Some []
  | String c rest =>
      if isspace c then fromhex rest
      else
        match hexval c, rest with
        | Some hi, String d rest' =>
            match hexval d with
            | Some lo =>
                match fromhex rest' with
                | Some bs => Some (byte_of_ascii (ascii_of_N (16 * hi + lo)) :: bs)
                | None => None
                end
            | None => None
            end
        | _, _ => None
        end
  end.

(** A number as the transport reports signal metrics: an [int] or a
    [float]. *)
Inductive num :=
| Int (n : Z)
| Float (f : float).

End Py.

(** ** The world outside [rnprobe.py] *)

(** [RNS.PacketReceipt] status values; the program compares the status
    with [SENT] and with [DELIVERED] only. *)
Inductive Status := FAILED | SENT | DELIVERED | CULLED.

Definition Status_eqb (a b : Status) : bool :=
  match a, b with
  | FAILED, FAILED | SENT, SENT | DELIVERED, DELIVERED | CULLED, CULLED => true
  | _, _ => false
  end.

(** The fields of [receipt.proof_packet] that the program reads. *)
Record ProofPacket := mkProofPacket {
  packet_hash : bytes;
  rssi : option Py.num;
  snr : option Py.num
}.

(** The collaborators.  The two polled observations, [has_path] and the
    receipt's [status], are mutated by the transport between reads:
    they are given per read, the [n]-th read of a run seeing the [n]-th
    answer.  The other lookups are functions of their argument.
    - [app_and_aspects_from_name]: [inl msg] stands for a raised
      exception whose [str] is [msg];
    - [raw_len size]: [len(probe.raw)] once a probe with a payload of
      [size] bytes is packed;
    - [get_next_hop_if_name]: a [str], the string "None" when no
      interface is known (line 105 tests for it);
    - [get_rtt], [proof_packet], [receipt_destination_hash]:
      [receipt.get_rtt()], [receipt.proof_packet] and
      [receipt.destination.hash] at the time of the report;
    - [round3 x] and [str_float x]: Python's [round(x, 3)] and [str(x)]
      on a [float]. *)
Record World := mkWorld {
  TRUNCATED_HASHLENGTH : Z;
  MTU : Z;
  app_and_aspects_from_name : string -> string + (string * list string);
  prettyhexrep : bytes -> string;
  has_path : bytes -> nat -> bool;
  raw_len : Z -> Z;
  status : nat -> Status;
  get_next_hop : bytes -> option bytes;
  get_next_hop_if_name : bytes -> string;
  hops_to : bytes -> Z;
  get_rtt : float;
  is_connected_to_shared_instance : bool;
  proof_packet : option ProofPacket;
  receipt_destination_hash : bytes;
  get_packet_rssi : bytes -> option Py.num;
  get_packet_snr : bytes -> option Py.num;
  round3 : float -> float;
  str_float : float -> string
}.

(** ** Observable actions *)

Inductive Event :=
| Print (text : string)
| Flush
| Sleep (ms : Z)
| ReticulumInit (configdir : option string) (loglevel : Z)
| HasPath (h : bytes) (answer : bool)
| RequestPath (h : bytes)
| IdentityRecall (h : bytes)
| Urandom (size : Z)
| PacketPack (size : Z)
| PacketSend
| GetNextHop (h : bytes)
| GetNextHopIfName (h : bytes)
| ReadStatus (st : Status)
| HopsTo (h : bytes)
| GetRtt
| GetPacketRssi (packet_hash : bytes)
| GetPacketSnr (packet_hash : bytes).

(** ** The monad *)

Record State := mkState {
  trace : list Event;
  path_queries : nat;
  status_reads : nat
}.

Definition init : State := mkState [] 0 0.

(** How a run stops short of returning: [exit(code)], an uncaught
    exception, or the fuel of a polling loop running out. *)
Inductive Halt :=
| Exit (code : option Z)
| Raise (exc : string)
| OutOfFuel.

Inductive Res (A : Type) :=
| Val (a : A) (s : State)
| Stop (h : Halt) (s : State).
Arguments Val {A} a s.
Arguments Stop {A} h s.

Definition M (A : Type) := State -> Res A.

Definition ret {A} (a : A) : M A := fun s => Val a s.

Definition bind {A B} (m : M A) (k : A -> M B) : M B :=
  fun s => match m s with
           | Val a s' => k a s'
           | Stop h s' => Stop h s'
           end.

Declare Scope monad_scope.
Delimit Scope monad_scope with monad.
Notation "x <- m ;; k" := (bind m (fun x => k))
  (at level 61, m at next level, right associativity) : monad_scope.
Notation "m ;; k" := (bind m (fun _ => k))
  (at level 61, right associativity) : monad_scope.
Open Scope monad_scope.

Definition emit (e : Event) : M unit :=
  fun s => Val tt (mkState (trace s ++ [e]) (path_queries s) (status_reads s)).

Definition exit {A} (code : option Z) : M A := fun s => Stop (Exit code) s.
Definition raise {A} (exc : string) : M A := fun s => Stop (Raise exc) s.
Definition out_of_fuel {A} : M A := fun s => Stop OutOfFuel s.

(** [print(text, end=e)] writes [text ++ e]; the default [end] is a line
    feed. *)
Definition print_end (text e : string) : M unit := emit (Print (text ++ e)).
Definition print (text : string) : M unit := print_end text Py.LF.

(** [RNS.Transport.has_path(h)]. *)
Definition has_path_call (w : World) (h : bytes) : M bool :=
  fun s =>
    let b := has_path w h (path_queries s) in
    Val b (mkState (trace s ++ [HasPath h b]) (S (path_queries s)) (status_reads s)).

(** A read of [receipt.status]. *)
Definition read_status (w : World) : M Status :=
  fun s =>
    let st := status w (status_reads s) in
    Val st (mkState (trace s ++ [ReadStatus st]) (path_queries s) (S (status_reads s))).

(** ** The program *)

Definition DEFAULT_PROBE_SIZE : Z := 16.

(** The frames of the progress indicator, one string per glyph. *)
Definition syms : list string := ["⢄"; "⢂"; "⢁"; "⡁"; "⡈"; "⡐"; "⡠"].

(** [syms[i]] *)
Definition sym (i : nat) : string := nth i syms "".

(** [(i+1) % len(syms)] *)
Definition next_sym (i : nat) : nat := Nat.modulo (i + 1) (List.length syms).

(** One tick of either polling loop (lines 78-81 and 114-117). *)
Definition tick (i : nat) : M unit :=
  emit (Sleep 100) ;;
  print_end (Py.BS ++ Py.BS ++ sym i ++ " ") "" ;;
  emit Flush.

(** Lines 48-58: the destination hash from its hexadecimal form, or the
    message of the [ValueError] raised. *)
Definition destination_hash_of (w : World) (destination_hexhash : string) : string + bytes :=
  let dest_len := (TRUNCATED_HASHLENGTH w / 8) * 2 in
  if negb (Py.len destination_hexhash =? dest_len) then
    inl ("Destination length is invalid, must be " ++ Py.str_int dest_len
         ++ " hexadecimal characters (" ++ Py.str_int (dest_len / 2) ++ " bytes).")
  else
    match Py.fromhex destination_hexhash with
    | Some destination_hash => inr destination_hash
    | None => inl "Invalid destination entered. Check your input."
    end.

(** Lines 77-81: [while not RNS.Transport.has_path(destination_hash)]. *)
Fixpoint wait_path (w : World) (destination_hash : bytes) (fuel i : nat) : M unit :=
  match fuel with
  | O => out_of_fuel
  | S fuel' =>
      known <- has_path_call w destination_hash ;;
      if known then ret tt
      else tick i ;; wait_path w destination_hash fuel' (next_sym i)
  end.

(** Modelled from the spec: [RNS.Packet.pack] is not among the sources;
    it fails, with [OSError], when the packed frame exceeds the network's
    maximum transmission unit, and [probe.raw] holds the frame either
    way.  [inl n] is the failure, [n] the length of the frame. *)
Definition pack (w : World) (size : Z) : Z + Z :=
  let n := raw_len w size in
  if MTU w <? n then inl n else inr n.

(** Lines 102-108: the verbose part of the "Sent" line. *)
Definition more_of (w : World) (destination_hash : bytes) (more_output : bool) : M string :=
  if more_output then
    emit (GetNextHop destination_hash) ;;
    let nhd := get_next_hop w destination_hash in
    let via_str := match nhd with
                   | Some n => " via " ++ prettyhexrep w n
                   | None => ""
                   end in
    emit (GetNextHopIfName destination_hash) ;;
    if_str <- (if negb (get_next_hop_if_name w destination_hash =? "None")%string
               then emit (GetNextHopIfName destination_hash) ;;
                    ret (" on " ++ get_next_hop_if_name w destination_hash)
               else ret "") ;;
    ret (via_str ++ if_str)
  else ret "".

(** Lines 113-117: [while receipt.status == RNS.PacketReceipt.SENT]. *)
Fixpoint wait_receipt (w : World) (fuel i : nat) : M unit :=
  match fuel with
  | O => out_of_fuel
  | S fuel' =>
      st <- read_status w ;;
      if Status_eqb st SENT then tick i ;; wait_receipt w fuel' (next_sym i)
      else ret tt
  end.

(** Lines 124-127: the plural ending of "hop". *)
Definition ms_of (hops : Z) : string := if negb (hops =? 1) then "s" else "".

(** Lines 130-135. *)
Definition rttstring_of (w : World) (rtt : float) : string :=
  if PrimFloat.leb 1%float rtt then
    str_float w (round3 w rtt) ++ " seconds"
  else
    str_float w (round3 w (PrimFloat.mul rtt 1000%float)) ++ " milliseconds".

(** [str(x)] for a signal metric. *)
Definition str_num (w : World) (x : Py.num) : string :=
  match x with
  | Py.Int n => Py.str_int n
  | Py.Float f => str_float w f
  end.

(** Lines 142-143 and 150-151. *)
Definition rssi_stats (w : World) (reception_rssi : option Py.num) : string :=
  match reception_rssi with
  | Some v => " [RSSI " ++ str_num w v ++ " dBm]"
  | None => ""
  end.

(** Lines 145-146 and 153-154. *)
Definition snr_stats (w : World) (reception_snr : option Py.num) : string :=
  match reception_snr with
  | Some v => " [SNR " ++ str_num w v ++ " dB]"
  | None => ""
  end.

(** Lines 137-154. *)
Definition reception_stats_of (w : World) : M string :=
  if is_connected_to_shared_instance w then
    match proof_packet w with
    | None => raise "AttributeError"
    | Some p =>
        emit (GetPacketRssi (packet_hash p)) ;;
        let reception_rssi := get_packet_rssi w (packet_hash p) in
        emit (GetPacketSnr (packet_hash p)) ;;
        let reception_snr := get_packet_snr w (packet_hash p) in
        ret (rssi_stats w reception_rssi ++ snr_stats w reception_snr)
    end
  else
    match proof_packet w with
    | Some p => ret (rssi_stats w (rssi p) ++ snr_stats w (snr p))
    | None => ret ""
    end.

(** Lines 156-162: the text of the delivery report. *)
Definition reply_text (w : World) (rttstring : string) (hops : Z) (reception_stats : string) : string :=
  "Valid reply received from " ++ prettyhexrep w (receipt_destination_hash w)
  ++ Py.LF ++ "Round-trip time is " ++ rttstring
  ++ " over " ++ Py.str_int hops ++ " hop" ++ ms_of hops
  ++ reception_stats.

(** Lines 122-165. *)
Definition report (w : World) (destination_hash : bytes) : M unit :=
  st <- read_status w ;;
  if Status_eqb st DELIVERED then
    emit (HopsTo destination_hash) ;;
    let hops := hops_to w destination_hash in
    emit GetRtt ;;
    let rttstring := rttstring_of w (get_rtt w) in
    reception_stats <- reception_stats_of w ;;
    print (reply_text w rttstring hops reception_stats)
  else
    print "Probe timed out".

(** Lines 35-165.  [os.urandom(size)] is taken on the sizes of a C
    [ssize_t] that the machine can allocate, where it raises
    [ValueError] on a negative size and returns otherwise; the writes to
    the standard output are taken to succeed. *)
Definition program_setup (w : World) (fuel : nat) (configdir : option string)
    (destination_hexhash : string) (size : option Z) (full_name : option string)
    (verbosity : Z) : M unit :=
  let size := match size with None => DEFAULT_PROBE_SIZE | Some n => n end in
  match full_name with
  | None =>
      print "The full destination name including application name aspects must be specified for the destination" ;;
      exit None
  | Some full_name =>
      match app_and_aspects_from_name w full_name with
      | inl e => print e ;; exit None
      | inr (app_name, aspects) =>
          match destination_hash_of w destination_hexhash with
          | inl e => print e ;; exit None
          | inr destination_hash =>
              let more_output := 0 <? verbosity in
              let verbosity := verbosity - 1 in
              emit (ReticulumInit configdir (3 + verbosity)) ;;
              known <- has_path_call w destination_hash ;;
              (if negb known then
                 emit (RequestPath destination_hash) ;;
                 print_end ("Path to " ++ prettyhexrep w destination_hash ++ " requested  ") " " ;;
                 emit Flush
               else ret tt) ;;
              wait_path w destination_hash fuel 0 ;;
              emit (IdentityRecall destination_hash) ;;
              emit (Urandom size) ;;
              (if size <? 0 then raise "ValueError" else ret tt) ;;
              emit (PacketPack size) ;;
              match pack w size with
              | inl n =>
                  print ("Error: Probe packet size of " ++ Py.str_int n
                         ++ " bytes exceed MTU of " ++ Py.str_int (MTU w) ++ " bytes") ;;
                  exit (Some 1)
              | inr _ =>
                  emit PacketSend ;;
                  more <- more_of w destination_hash more_output ;;
                  print_end (Py.CR ++ "Sent " ++ Py.str_int size ++ " byte probe to "
                             ++ prettyhexrep w destination_hash ++ more ++ "  ") " " ;;
                  wait_receipt w fuel 0 ;;
                  print (Py.BS ++ Py.BS ++ " ") ;;
                  emit Flush ;;
                  report w destination_hash
              end
          end
      end
  end.

(** A run of the program from the initial state. *)
Definition run (w : World) (fuel : nat) (configdir : option string)
    (destination_hexhash : string) (size : option Z) (full_name : option string)
    (verbosity : Z) : Res unit :=
  program_setup w fuel configdir destination_hexhash size full_name verbosity init.

(** The exit status of the process: 0 after a return and after [exit()],
    the code after [exit(code)], 1 after an uncaught exception. *)
Definition exit_status (r : Res unit) : option Z :=
  match r with
  | Val _ _ => Some 0
  | Stop (Exit None) _ => Some 0
  | Stop (Exit (Some c)) _ => Some c
  | Stop (Raise _) _ => Some 1
  | Stop OutOfFuel _ => None
  end.

Definition trace_of (r : Res unit) : list Event :=
  match r with
  | Val _ s => trace s
  | Stop _ s => trace s
  end.

(** ** Vocabulary of the statements *)

Definition state_of {A} (r : Res A) : State :=
  match r with
  | Val _ s => s
  | Stop _ s => s
  end.

(** What one tick of a polling loop leaves in the trace. *)
Definition tick_events (i : nat) : list Event :=
  [Sleep 100; Print (Py.BS ++ Py.BS ++ sym i ++ " "); Flush].

(** [k] unsuccessful polls of the path, the indicator starting at frame [i]. *)
Fixpoint path_ticks (h : bytes) (k i : nat) : list Event :=
  match k with
  | O => []
  | S k' => HasPath h false :: tick_events i ++ path_ticks h k' (next_sym i)
  end.

(** [n] reads of a status still [SENT], the indicator starting at frame [i]. *)
Fixpoint receipt_ticks (n i : nat) : list Event :=
  match n with
  | O => []
  | S n' => ReadStatus SENT :: tick_events i ++ receipt_ticks n' (next_sym i)
  end.

Definition is_request (e : Event) : bool :=
  match e with RequestPath _ => true | _ => false end.

Definition is_send (e : Event) : bool :=
  match e with PacketSend => true | _ => false end.

Definition is_sleep (e : Event) : bool :=
  match e with Sleep _ => true | _ => false end.

(** The number of events of a kind in a trace. *)
Definition count (p : Event -> bool) (tr : list Event) : nat :=
  List.length (filter p tr).

(** The path polls of the loop: polls 1 to [k] answer no, poll [k+1] yes
    (poll 0 is the test of line 70). *)
Definition path_after (w : World) (h : bytes) (k : nat) : Prop :=
  (forall j, (1 <= j <= k)%nat -> has_path w h j = false) /\
  has_path w h (S k) = true.

(** The status reads of the loop: reads 0 to [n-1] see [SENT], read [n]
    does not. *)
Definition settles_after (w : World) (n : nat) : Prop :=
  (forall j, (j < n)%nat -> status w j = SENT) /\
  status w n <> SENT.

(** The events of lines 70-73, from the answer of the first poll. *)
Definition discovery_events (w : World) (h : bytes) : list Event :=
  if has_path w h 0 then [HasPath h true]
  else [HasPath h false; RequestPath h;
        Print (("Path to " ++ prettyhexrep w h ++ " requested  ") ++ " "); Flush].

(** The events of lines 102-108. *)
Definition more_events (w : World) (h : bytes) (more_output : bool) : list Event :=
  if more_output then
    GetNextHop h :: GetNextHopIfName h ::
    (if (get_next_hop_if_name w h =? "None")%string then [] else [GetNextHopIfName h])
  else [].

(** The verbose part of the "Sent" line. *)
Definition via_str (w : World) (h : bytes) : string :=
  match get_next_hop w h with
  | Some n => " via " ++ prettyhexrep w n
  | None => ""
  end.

Definition if_str (w : World) (h : bytes) : string :=
  if (get_next_hop_if_name w h =? "None")%string then ""
  else " on " ++ get_next_hop_if_name w h.

Definition more_text (w : World) (h : bytes) (more_output : bool) : string :=
  if more_output then via_str w h ++ if_str w h else "".

(** The "Sent" line of line 110. *)
Definition sent_line (w : World) (h : bytes) (size : Z) (more : string) : string :=
  (Py.CR ++ "Sent " ++ Py.str_int size ++ " byte probe to " ++ prettyhexrep w h
   ++ more ++ "  ") ++ " ".

(** The trace of a run up to the "Sent" line, the loop of lines 77-81
    having polled [k] times in vain. *)
Definition trace_to_sent (w : World) (configdir : option string) (verbosity : Z)
    (h : bytes) (size : Z) (k : nat) : list Event :=
  ReticulumInit configdir (3 + (verbosity - 1)) :: discovery_events w h
  ++ path_ticks h k 0
  ++ [HasPath h true; IdentityRecall h; Urandom size; PacketPack size; PacketSend]
  ++ more_events w h (0 <? verbosity)
  ++ [Print (sent_line w h size (more_text w h (0 <? verbosity)))].

(** The payload size of line 36. *)
Definition size_of (size : option Z) : Z :=
  match size with None => DEFAULT_PROBE_SIZE | Some n => n end.

(** Lines 119-165, which follow the receipt loop. *)
Definition after_wait (w : World) (h : bytes) : M unit :=
  print (Py.BS ++ Py.BS ++ " ") ;;
  emit Flush ;;
  report w h.

(** Lines 75-165, which follow the path request. *)
Definition after_discovery (w : World) (fuel : nat) (h : bytes) (size : Z)
    (more_output : bool) : M unit :=
  wait_path w h fuel 0 ;;
  emit (IdentityRecall h) ;;
  emit (Urandom size) ;;
  (if size <? 0 then raise "ValueError" else ret tt) ;;
  emit (PacketPack size) ;;
  match pack w size with
  | inl n =>
      print ("Error: Probe packet size of " ++ Py.str_int n
             ++ " bytes exceed MTU of " ++ Py.str_int (MTU w) ++ " bytes") ;;
      exit (Some 1)
  | inr _ =>
      emit PacketSend ;;
      more <- more_of w h more_output ;;
      print_end (Py.CR ++ "Sent " ++ Py.str_int size ++ " byte probe to "
                 ++ prettyhexrep w h ++ more ++ "  ") " " ;;
      wait_receipt w fuel 0 ;;
      print (Py.BS ++ Py.BS ++ " ") ;;
      emit Flush ;;
      report w h
  end.

(** A computation that only adds to the trace, and adds no event of the
    kind [p]. *)
Definition adds {A} (p : Event -> bool) (m : M A) : Prop :=
  forall s, exists d : list Event,
    trace (state_of (m s)) = (trace s ++ d)%list /\ count p d = 0%nat.

(** The unit label of the hop count, as the report is to show it. *)
Definition hop_unit (hops : Z) : string := if hops =? 1 then "hop" else "hops".

(** The state once [d] has been added to the trace of [s]. *)
Definition logged (s : State) (d : list Event) : State :=
  mkState (trace s ++ d) (path_queries s) (status_reads s).

(** The state after a read of the status and [d]. *)
Definition read_logged (w : World) (s : State) (d : list Event) : State :=
  mkState (trace s ++ ReadStatus (status w (status_reads s)) :: d)
          (path_queries s) (S (status_reads s)).

(** A character that [bytes.fromhex] neither skips nor reads as a digit. *)
Definition foreign (c : ascii) : bool := negb (Py.isspace c) && negb (Py.ishex c).

(** Some character of [s] satisfies [p]. *)
Fixpoint contains (p : ascii -> bool) (s : string) : bool :=
  match s with
  | EmptyString => false
  | String c s' => p c || contains p s'
  end.

(** The number of hexadecimal characters the destination must have. *)
Definition dest_len (w : World) : Z := (TRUNCATED_HASHLENGTH w / 8) * 2.

(** The message of line 51. *)
Definition length_message (w : World) : string :=
  "Destination length is invalid, must be " ++ Py.str_int (dest_len w)
  ++ " hexadecimal characters (" ++ Py.str_int (dest_len w / 2) ++ " bytes).".

(** The message of line 55. *)
Definition content_message : string := "Invalid destination entered. Check your input.".

(** A run that ended in [exit()] having printed [msg] and done nothing else. *)
Definition rejected (msg : string) : Res unit :=
  Stop (Exit None) (mkState [Print (msg ++ Py.LF)] 0 0).

(** ** The entry point *)

Module Cli.

(** The namespace that [parser.parse_args()] returns (lines 173-181). *)
Record Namespace := mkNamespace {
  config : option string;
  size : option Z;
  full_name : option string;
  destination_hash : option string;
  verbose : Z
}.

(** The truth value of an optional [str]: [None] and the empty string
    are false. *)
Definition truthy (x : option string) : bool :=
  match x with
  | Some (String _ _) => true
  | _ => false
  end.

(** Lines 181-199, the body of the [try]: [help] is the text that
    [parser.print_help()] writes. *)
Definition main_body (w : World) (fuel : nat) (help : string) (args : Namespace) : M unit :=
  let configarg := if truthy (config args) then config args else None in
  match destination_hash args with
  | Some (String _ _ as destination_hexhash) =>
      program_setup w fuel configarg destination_hexhash
        (size args) (full_name args) (verbose args)
  | _ =>
      print "" ;;
      print_end help "" ;;
      print ""
  end.

(** Lines 169-203.  The handler catches [KeyboardInterrupt] and nothing
    else; the interrupt itself comes from outside the program, and no
    computation of this model raises it. *)
Definition main (w : World) (fuel : nat) (help : string) (args : Namespace) : M unit :=
  fun s =>
    match main_body w fuel help args s with
    | Stop (Raise exc) s' =>
        if (exc =? "KeyboardInterrupt")%string then (print "" ;; exit None) s'
        else Stop (Raise exc) s'
    | r => r
    end.

End Cli.

(** ** Further vocabulary *)

Definition is_init (e : Event) : bool :=
  match e with ReticulumInit _ _ => true | _ => false end.

(** The events that only the start of a run leaves: the initialisation
    of the transport and the path request. *)
Definition is_start (e : Event) : bool :=
  match e with ReticulumInit _ _ | RequestPath _ => true | _ => false end.

(** The lookups of the verbose part (lines 103-105). *)
Definition is_lookup (e : Event) : bool :=
  match e with GetNextHop _ | GetNextHopIfName _ => true | _ => false end.

(** The number of white space characters of a string. *)
Fixpoint spaces (s : string) : nat :=
  match s with
  | EmptyString => 0
  | String c s' => ((if Py.isspace c then 1 else 0) + spaces s')%nat
  end.

(** A string of hexadecimal digits only. *)
Definition hex_only (s : string) : bool := negb (contains (fun c => negb (Py.ishex c)) s).

(** The lower-case form of an ASCII letter, and of a string. *)
Definition lower_ascii (c : ascii) : ascii :=
  let n := N_of_ascii c in
  if ((65 <=? n) && (n <=? 90))%N then ascii_of_N (n + 32) else c.

Fixpoint lower (s : string) : string :=
  match s with
  | EmptyString => EmptyString
  | String c s' => String (lower_ascii c) (lower s')
  end.

(** A computation that only adds to the trace, and adds at most [n]
    events of the kind [p]. *)
Definition adds_le {A} (p : Event -> bool) (n : nat) (m : M A) : Prop :=
  forall s, exists d : list Event,
    trace (state_of (m s)) = (trace s ++ d)%list /\ (count p d <= n)%nat.

(** A computation that stops short of returning only in the ways [P]. *)
Definition stops {A} (P : Halt -> Prop) (m : M A) : Prop :=
  forall s h s', m s = Stop h s' -> P h.

(** The ways in which the program stops once the destination is
    accepted: the fuel of a loop runs out, the probe is too large, the
    size is negative, or the proof packet of a delivered receipt is
    missing on a shared instance. *)
Definition probe_stop (w : World) (size : Z) (h : Halt) : Prop :=
  h = OutOfFuel \/
  (h = Exit (Some 1) /\ MTU w < raw_len w size) \/
  (h = Raise "ValueError" /\ size < 0) \/
  (h = Raise "AttributeError" /\ is_connected_to_shared_instance w = true
   /\ proof_packet w = None).

(** What the [j]-th poll in vain of a loop leaves in the trace, after
    the poll itself: the sleep, the frame [j mod 7] of the indicator,
    the flush. *)
Definition frame (j : nat) : list Event :=
  [Sleep 100; Print (Py.BS ++ Py.BS ++ nth (Nat.modulo j 7) syms "" ++ " "); Flush].

(** ** A concrete world *)

Module Lab.

Definition hexdigit (n : N) : ascii :=
  ascii_of_N (if (n <? 10)%N then 48 + n else 87 + n).

(** [RNS.hexrep] without delimiter: two lower-case digits per byte. *)
Fixpoint hexrep (data : bytes) : string :=
  match data with
  | [] => ""
  | b :: data' =>
      let n := Byte.to_N b in
      String (hexdigit (n / 16)) (String (hexdigit (n mod 16)) (hexrep data'))
  end.

(** [RNS.prettyhexrep]. *)
Definition pretty (data : bytes) : string := "<" ++ hexrep data ++ ">".

(** [s.split(".")], the segment under construction in [cur]. *)
Fixpoint split_dots (s cur : string) : list string :=
  match s with
  | EmptyString => [cur]
  | String c s' =>
      if Ascii.eqb c "."%char then cur :: split_dots s' ""
      else split_dots s' (cur ++ String c "")
  end.

(** A name parser for the examples: it splits the name on its dots and
    refuses a name of fewer than two segments. *)
Definition split_name (full_name : string) : string + (string * list string) :=
  match split_dots full_name "" with
  | app_name :: (_ :: _) as aspects => inr (app_name, aspects)
  | _ => inl "Invalid destination name"
  end.

(** Python's answers on the floats of the examples: [round(x, 3)]
    leaves each of them as it is. *)
Definition float_repr (f : float) : string :=
  if PrimFloat.eqb f 1%float then "1.0"
  else if PrimFloat.eqb f 500%float then "500.0"
  else if PrimFloat.eqb f 2.5%float then "2.5"
  else if PrimFloat.eqb f 7.5%float then "7.5"
  else "nan".

(** A transport that finds the path at poll [found], whose receipt leaves
    [SENT] at read [settled] for [final]. *)
Definition world (found settled : nat) (final : Status) (shared : bool)
    (pp : option ProofPacket) (rtt : float) (hops : Z)
    (next_hop : option bytes) (if_name : string) : World :=
  {| TRUNCATED_HASHLENGTH := 128;
     MTU := 500;
     app_and_aspects_from_name := split_name;
     prettyhexrep := pretty;
     has_path := fun _ n => (found <=? n)%nat;
     raw_len := fun size => size + 35;
     status := fun n => if (n <? settled)%nat then SENT else final;
     get_next_hop := fun _ => next_hop;
     get_next_hop_if_name := fun _ => if_name;
     hops_to := fun _ => hops;
     get_rtt := rtt;
     is_connected_to_shared_instance := shared;
     proof_packet := pp;
     receipt_destination_hash := [x00; x01]%byte;
     get_packet_rssi := fun _ => Some (Py.Int (-70));
     get_packet_snr := fun _ => None;
     round3 := fun f => f;
     str_float := float_repr |}.

Definition packet : ProofPacket :=
  {| packet_hash := [xaa; xbb]%byte;
     rssi := Some (Py.Int (-81));
     snr := Some (Py.Float 7.5%float) |}.

(** A destination of 32 hexadecimal characters. *)
Definition hex : string := "000102030405060708090a0b0c0d0e0f".

Definition hash : bytes :=
  [x00; x01; x02; x03; x04; x05; x06; x07; x08; x09; x0a; x0b; x0c; x0d; x0e; x0f]%byte.

(** 32 characters, eleven bytes separated by spaces. *)
Definition spaced_hex : string := "00 00 00 00 00 00 00 00 00 00 00".

Definition spaced_hash : bytes :=
  [x00; x00; x00; x00; x00; x00; x00; x00; x00; x00; x00]%byte.

(** The path is known from the start, the receipt is delivered at the
    third read. *)
Definition plain : World :=
  world 0 2 DELIVERED false (Some packet) 0.5%float 1 None "None".

(** The path is found at the second poll, the receipt fails at the
    second read. *)
Definition remote : World :=
  world 1 1 FAILED false None 0.5%float 3 None "None".

(** The path is found at the fourth poll, the receipt is delivered at
    the third read; verbose lookups find a next hop and an interface. *)
Definition far : World :=
  world 3 2 DELIVERED true (Some packet) 1%float 2 (Some [x01; x02]%byte) "eth0".

(** A stand-alone instance whose delivered receipt has no proof packet. *)
Definition bare : World :=
  world 0 2 DELIVERED false None 2.5%float 0 None "None".

(** A shared instance whose delivered receipt has no proof packet. *)
Definition orphan : World :=
  world 0 1 DELIVERED true None 0.5%float 1 None "None".

End Lab.

(** * Verification *)

(** ** The builtins on examples *)

Example fromhex_plain : Py.fromhex "00ff" = Some [x00; xff]%byte.
Proof. reflexivity. Qed.

Example fromhex_spaced : Py.fromhex "0a 0B" = Some [x0a; x0b]%byte.
Proof. reflexivity. Qed.

Example fromhex_split_pair : Py.fromhex "0 a" = None.
Proof. reflexivity. Qed.

Example fromhex_odd : Py.fromhex "abc" = None.
Proof. reflexivity. Qed.

Example fromhex_nonhex : Py.fromhex "zz" = None.
Proof. reflexivity. Qed.

Example str_int_neg : Py.str_int (-5) = "-5".
Proof. reflexivity. Qed.

Example str_int_zero : Py.str_int 0 = "0".
Proof. reflexivity. Qed.

Example split_name_two : Lab.split_name "app.a.b" = inr ("app", ["a"; "b"]).
Proof. reflexivity. Qed.

Example split_name_one : Lab.split_name "app" = inl "Invalid destination name".
Proof. reflexivity. Qed.

(** ** The polling loops *)

Ltac step := unfold tick, print, print_end, bind, emit, ret, exit, raise, out_of_fuel,
  has_path_call, read_status; cbn [trace path_queries status_reads].

Lemma append_empty_r (s : string) : s ++ "" = s.
Proof. induction s as [|c s IH]; cbn; [reflexivity | now rewrite IH]. Qed.

Lemma tick_run (i : nat) (s : State) :
  tick i s = Val tt (mkState (trace s ++ tick_events i) (path_queries s) (status_reads s)).
Proof.
  step. unfold tick_events. rewrite <- !app_assoc. cbn [app].
  rewrite append_empty_r. reflexivity.
Qed.

(** The path loop returns at the first poll that answers yes, one tick
    per poll that answered no. *)
Lemma wait_path_found (w : World) (h : bytes) :
  forall (k fuel i : nat) (s : State),
    (forall j, (j < k)%nat -> has_path w h (path_queries s + j) = false) ->
    has_path w h (path_queries s + k) = true ->
    (k < fuel)%nat ->
    wait_path w h fuel i s =
    Val tt (mkState (trace s ++ path_ticks h k i ++ [HasPath h true])
                    (path_queries s + S k) (status_reads s)).
Proof.
  induction k as [|k IH]; intros fuel i s Hno Hyes Hfuel;
    destruct fuel as [|fuel]; try lia; cbn [wait_path].
  - unfold bind at 1. unfold has_path_call.
    rewrite Nat.add_0_r in Hyes. rewrite Hyes.
    unfold ret. cbn [path_ticks app]. f_equal. f_equal. lia.
  - unfold bind at 1. unfold has_path_call.
    pose proof (Hno 0%nat ltac:(lia)) as H0. rewrite Nat.add_0_r in H0. rewrite H0.
    unfold bind at 1. rewrite tick_run. cbn [trace path_queries status_reads].
    rewrite IH; cbn [trace path_queries status_reads].
    + f_equal. f_equal; [|lia].
      cbn [path_ticks]. rewrite <- !app_assoc. reflexivity.
    + intros j Hj. replace (S (path_queries s) + j)%nat with (path_queries s + S j)%nat by lia.
      apply Hno. lia.
    + replace (S (path_queries s) + k)%nat with (path_queries s + S k)%nat by lia. exact Hyes.
    + lia.
Qed.

(** While every poll answers no, the path loop does not return: whatever
    the fuel, it is used up polling. *)
Lemma wait_path_unknown (w : World) (h : bytes) :
  forall (fuel i : nat) (s : State),
    (forall j, (j < fuel)%nat -> has_path w h (path_queries s + j) = false) ->
    wait_path w h fuel i s =
    Stop OutOfFuel (mkState (trace s ++ path_ticks h fuel i)
                            (path_queries s + fuel) (status_reads s)).
Proof.
  induction fuel as [|fuel IH]; intros i s Hno; cbn [wait_path].
  - unfold out_of_fuel. cbn [path_ticks]. rewrite app_nil_r, Nat.add_0_r.
    destruct s; reflexivity.
  - unfold bind at 1. unfold has_path_call.
    pose proof (Hno 0%nat ltac:(lia)) as H0. rewrite Nat.add_0_r in H0. rewrite H0.
    unfold bind at 1. rewrite tick_run. cbn [trace path_queries status_reads].
    rewrite IH; cbn [trace path_queries status_reads].
    + f_equal. f_equal; [|lia].
      cbn [path_ticks]. rewrite <- !app_assoc. reflexivity.
    + intros j Hj. replace (S (path_queries s) + j)%nat with (path_queries s + S j)%nat by lia.
      apply Hno. lia.
Qed.

(** The receipt loop returns at the first read that does not see [SENT],
    one tick per read that did. *)
Lemma wait_receipt_settled (w : World) :
  forall (n fuel i : nat) (s : State),
    (forall j, (j < n)%nat -> status w (status_reads s + j) = SENT) ->
    status w (status_reads s + n) <> SENT ->
    (n < fuel)%nat ->
    wait_receipt w fuel i s =
    Val tt (mkState (trace s ++ receipt_ticks n i ++ [ReadStatus (status w (status_reads s + n))])
                    (path_queries s) (status_reads s + S n)).
Proof.
  induction n as [|n IH]; intros fuel i s Hsent Hnot Hfuel;
    destruct fuel as [|fuel]; try lia; cbn [wait_receipt].
  - unfold bind at 1. unfold read_status.
    rewrite Nat.add_0_r in *.
    destruct (status w (status_reads s)) eqn:E; try congruence;
      cbn [Status_eqb]; unfold ret; cbn [receipt_ticks app];
      (f_equal; f_equal; lia).
  - unfold bind at 1. unfold read_status.
    pose proof (Hsent 0%nat ltac:(lia)) as H0. rewrite Nat.add_0_r in H0. rewrite H0.
    cbn [Status_eqb].
    unfold bind at 1. rewrite tick_run. cbn [trace path_queries status_reads].
    rewrite IH; cbn [trace path_queries status_reads].
    + replace (S (status_reads s) + n)%nat with (status_reads s + S n)%nat by lia.
      f_equal. f_equal; [|lia].
      cbn [receipt_ticks]. rewrite <- !app_assoc. reflexivity.
    + intros j Hj. replace (S (status_reads s) + j)%nat with (status_reads s + S j)%nat by lia.
      apply Hsent. lia.
    + replace (S (status_reads s) + n)%nat with (status_reads s + S n)%nat by lia. exact Hnot.
    + lia.
Qed.

(** While every read sees [SENT], the receipt loop does not return:
    whatever the fuel, it is used up polling. *)
Lemma wait_receipt_in_flight (w : World) :
  forall (fuel i : nat) (s : State),
    (forall j, (j < fuel)%nat -> status w (status_reads s + j) = SENT) ->
    wait_receipt w fuel i s =
    Stop OutOfFuel (mkState (trace s ++ receipt_ticks fuel i)
                            (path_queries s) (status_reads s + fuel)).
Proof.
  induction fuel as [|fuel IH]; intros i s Hsent; cbn [wait_receipt].
  - unfold out_of_fuel. cbn [receipt_ticks]. rewrite app_nil_r, Nat.add_0_r.
    destruct s; reflexivity.
  - unfold bind at 1. unfold read_status.
    pose proof (Hsent 0%nat ltac:(lia)) as H0. rewrite Nat.add_0_r in H0. rewrite H0.
    cbn [Status_eqb].
    unfold bind at 1. rewrite tick_run. cbn [trace path_queries status_reads].
    rewrite IH; cbn [trace path_queries status_reads].
    + f_equal. f_equal; [|lia].
      cbn [receipt_ticks]. rewrite <- !app_assoc. reflexivity.
    + intros j Hj. replace (S (status_reads s) + j)%nat with (status_reads s + S j)%nat by lia.
      apply Hsent. lia.
Qed.

(** ** The run up to the receipt *)

Lemma more_of_run (w : World) (h : bytes) (more_output : bool) (s : State) :
  more_of w h more_output s =
  Val (more_text w h more_output)
      (mkState (trace s ++ more_events w h more_output) (path_queries s) (status_reads s)).
Proof.
  unfold more_of, more_text, more_events, if_str, via_str.
  destruct more_output.
  - step. destruct (get_next_hop_if_name w h =? "None")%string; cbn [negb];
      step; rewrite <- !app_assoc; reflexivity.
  - step. rewrite app_nil_r. destruct s; reflexivity.
Qed.

(** With a well-formed name and destination, a path found after [k]
    polls of the loop, and a probe within the size ceiling, the program
    reaches the receipt loop having left [trace_to_sent] behind. *)
Lemma program_to_wait (w : World) (fuel : nat) (configdir : option string)
    (hex : string) (size : option Z) (name : string) (verbosity : Z)
    (app_name : string) (aspects : list string) (h : bytes) (k : nat) :
  app_and_aspects_from_name w name = inr (app_name, aspects) ->
  destination_hash_of w hex = inr h ->
  path_after w h k ->
  (k < fuel)%nat ->
  0 <= size_of size ->
  raw_len w (size_of size) <= MTU w ->
  program_setup w fuel configdir hex size (Some name) verbosity init =
  (wait_receipt w fuel 0 ;; after_wait w h)
    (mkState (trace_to_sent w configdir verbosity h (size_of size) k) (S (S k)) 0).
Proof.
  intros Hname Hhash [Hno Hyes] Hfuel Hsize Hraw.
  unfold program_setup. rewrite Hname, Hhash.
  fold (size_of size).
  unfold bind at 1. unfold emit at 1. cbn [trace path_queries status_reads init].
  unfold bind at 1. unfold has_path_call at 1. cbn [trace path_queries status_reads].
  unfold bind at 1.
  assert (Hdisc :
    (if negb (has_path w h 0)
     then emit (RequestPath h) ;;
          print_end ("Path to " ++ prettyhexrep w h ++ " requested  ") " " ;; emit Flush
     else ret tt)
      (mkState ([] ++ [ReticulumInit configdir (3 + (verbosity - 1))]
                ++ [HasPath h (has_path w h 0)]) 1 0)
    = Val tt (mkState (ReticulumInit configdir (3 + (verbosity - 1)) :: discovery_events w h) 1 0)).
  { unfold discovery_events. destruct (has_path w h 0); cbn [negb]; step; reflexivity. }
  cbn [app] in Hdisc |- *. rewrite Hdisc. clear Hdisc.
  unfold bind at 1.
  rewrite (wait_path_found w h k); cbn [trace path_queries status_reads].
  - unfold bind at 1. unfold emit at 1. cbn [trace path_queries status_reads].
    unfold bind at 1. unfold emit at 1. cbn [trace path_queries status_reads].
    unfold bind at 1.
    destruct (size_of size <? 0) eqn:E; [apply Z.ltb_lt in E; lia|].
    unfold ret at 1.
    unfold bind at 1. unfold emit at 1. cbn [trace path_queries status_reads].
    unfold pack. destruct (MTU w <? raw_len w (size_of size)) eqn:E2;
      [apply Z.ltb_lt in E2; lia|].
    unfold bind at 1. unfold emit at 1. cbn [trace path_queries status_reads].
    unfold bind at 1. rewrite more_of_run. cbn [trace path_queries status_reads].
    unfold bind at 1. unfold print_end at 1, emit at 1. cbn [trace path_queries status_reads].
    unfold after_wait, trace_to_sent, sent_line.
    replace (1 + S k)%nat with (S (S k)) by lia.
    cbn [app]. rewrite <- !app_assoc. cbn [app].
    reflexivity.
  - intros j Hj. apply Hno. lia.
  - apply Hyes.
  - exact Hfuel.
Qed.

(** ** Counting events *)

Lemma count_app (p : Event -> bool) (a b : list Event) :
  count p (a ++ b) = (count p a + count p b)%nat.
Proof. unfold count. rewrite filter_app, length_app. reflexivity. Qed.

Lemma count_zero_not_in (p : Event -> bool) (tr : list Event) (e : Event) :
  count p tr = 0%nat -> p e = true -> ~ In e tr.
Proof.
  unfold count. intros Hc He Hin.
  assert (Hf : In e (filter p tr)) by (apply filter_In; split; assumption).
  destruct (filter p tr); [contradiction | discriminate].
Qed.

Section Adds.

Variable p : Event -> bool.

Lemma adds_ret {A} (a : A) : adds p (ret a).
Proof. intros s. exists []. cbn. rewrite app_nil_r. split; reflexivity. Qed.

Lemma adds_exit {A} (code : option Z) : adds p (@exit A code).
Proof. intros s. exists []. cbn. rewrite app_nil_r. split; reflexivity. Qed.

Lemma adds_raise {A} (exc : string) : adds p (@raise A exc).
Proof. intros s. exists []. cbn. rewrite app_nil_r. split; reflexivity. Qed.

Lemma adds_out_of_fuel {A} : adds p (@out_of_fuel A).
Proof. intros s. exists []. cbn. rewrite app_nil_r. split; reflexivity. Qed.

Lemma adds_emit (e : Event) : p e = false -> adds p (emit e).
Proof.
  intros He s. exists [e]. cbn. split; [reflexivity|].
  unfold count. cbn. rewrite He. reflexivity.
Qed.

Lemma adds_bind {A B} (m : M A) (k : A -> M B) :
  adds p m -> (forall a, adds p (k a)) -> adds p (bind m k).
Proof.
  intros Hm Hk s. unfold bind.
  destruct (Hm s) as [d1 [E1 C1]].
  destruct (m s) as [a s1 | h s1]; cbn [state_of] in E1.
  - destruct (Hk a s1) as [d2 [E2 C2]].
    exists (d1 ++ d2)%list. rewrite E2, E1, app_assoc. split; [reflexivity|].
    rewrite count_app, C1, C2. reflexivity.
  - exists d1. cbn [state_of]. split; assumption.
Qed.

Hypothesis p_Print : forall text, p (Print text) = false.
Hypothesis p_Flush : p Flush = false.
Hypothesis p_Sleep : forall ms, p (Sleep ms) = false.
Hypothesis p_HasPath : forall h b, p (HasPath h b) = false.
Hypothesis p_ReadStatus : forall st, p (ReadStatus st) = false.

Lemma adds_print_end (text e : string) : adds p (print_end text e).
Proof. apply adds_emit, p_Print. Qed.

Lemma adds_print (text : string) : adds p (print text).
Proof. apply adds_print_end. Qed.

Lemma adds_tick (i : nat) : adds p (tick i).
Proof.
  unfold tick. apply adds_bind; [apply adds_emit, p_Sleep|intros _].
  apply adds_bind; [apply adds_print_end|intros _]. apply adds_emit, p_Flush.
Qed.

Lemma adds_has_path_call (w : World) (h : bytes) : adds p (has_path_call w h).
Proof.
  intros s. exists [HasPath h (has_path w h (path_queries s))]. cbn.
  split; [reflexivity|]. unfold count. cbn. rewrite p_HasPath. reflexivity.
Qed.

Lemma adds_read_status (w : World) : adds p (read_status w).
Proof.
  intros s. exists [ReadStatus (status w (status_reads s))]. cbn.
  split; [reflexivity|]. unfold count. cbn. rewrite p_ReadStatus. reflexivity.
Qed.

Lemma adds_wait_path (w : World) (h : bytes) (fuel : nat) :
  forall i, adds p (wait_path w h fuel i).
Proof.
  induction fuel as [|fuel IH]; intros i; cbn [wait_path].
  - apply adds_out_of_fuel.
  - apply adds_bind; [apply adds_has_path_call|intros known].
    destruct known; [apply adds_ret|].
    apply adds_bind; [apply adds_tick|intros _]. apply IH.
Qed.

Lemma adds_wait_receipt (w : World) (fuel : nat) :
  forall i, adds p (wait_receipt w fuel i).
Proof.
  induction fuel as [|fuel IH]; intros i; cbn [wait_receipt].
  - apply adds_out_of_fuel.
  - apply adds_bind; [apply adds_read_status|intros st].
    destruct (Status_eqb st SENT); [|apply adds_ret].
    apply adds_bind; [apply adds_tick|intros _]. apply IH.
Qed.

Lemma count_tick_events (i : nat) : count p (tick_events i) = 0%nat.
Proof.
  unfold count, tick_events. cbn. rewrite p_Sleep, p_Print, p_Flush. reflexivity.
Qed.

Lemma count_path_ticks (h : bytes) (k : nat) :
  forall i, count p (path_ticks h k i) = 0%nat.
Proof.
  induction k as [|k IH]; intros i; cbn [path_ticks]; [reflexivity|].
  change (HasPath h false :: tick_events i ++ path_ticks h k (next_sym i))%list
  with ([HasPath h false] ++ tick_events i ++ path_ticks h k (next_sym i))%list.
  rewrite !count_app, count_tick_events, IH.
  unfold count. cbn. rewrite p_HasPath. reflexivity.
Qed.

Lemma count_receipt_ticks (n : nat) :
  forall i, count p (receipt_ticks n i) = 0%nat.
Proof.
  induction n as [|n IH]; intros i; cbn [receipt_ticks]; [reflexivity|].
  change (ReadStatus SENT :: tick_events i ++ receipt_ticks n (next_sym i))%list
  with ([ReadStatus SENT] ++ tick_events i ++ receipt_ticks n (next_sym i))%list.
  rewrite !count_app, count_tick_events, IH.
  unfold count. cbn. rewrite p_ReadStatus. reflexivity.
Qed.

End Adds.

(** Every sleep of a polling loop is one of 100 ms, one per poll in vain. *)
Lemma sleeps_path_ticks (h : bytes) (k : nat) :
  forall i, count is_sleep (path_ticks h k i) = k.
Proof.
  induction k as [|k IH]; intros i; cbn [path_ticks]; [reflexivity|].
  change (HasPath h false :: tick_events i ++ path_ticks h k (next_sym i))%list
    with ([HasPath h false] ++ tick_events i ++ path_ticks h k (next_sym i))%list.
  rewrite !count_app, IH. reflexivity.
Qed.

Lemma sleeps_receipt_ticks (n : nat) :
  forall i, count is_sleep (receipt_ticks n i) = n.
Proof.
  induction n as [|n IH]; intros i; cbn [receipt_ticks]; [reflexivity|].
  change (ReadStatus SENT :: tick_events i ++ receipt_ticks n (next_sym i))%list
    with ([ReadStatus SENT] ++ tick_events i ++ receipt_ticks n (next_sym i))%list.
  rewrite !count_app, IH. reflexivity.
Qed.

(** ** Address validation *)

Lemma wrong_length_rejected (w : World) (hex : string) :
  Py.len hex <> dest_len w ->
  destination_hash_of w hex = inl (length_message w).
Proof.
  intros Hlen. unfold destination_hash_of. fold (dest_len w).
  destruct (Py.len hex =? dest_len w) eqn:E; [apply Z.eqb_eq in E; contradiction|].
  reflexivity.
Qed.

Lemma fromhex_foreign_aux :
  forall (n : nat) (s : string),
    (String.length s <= n)%nat -> contains foreign s = true -> Py.fromhex s = None.
Proof.
  induction n as [|n IH]; intros s Hlen Hc.
  - destruct s; [discriminate | cbn in Hlen; lia].
  - destruct s as [|c rest]; [discriminate|].
    cbn [String.length] in Hlen. cbn [contains] in Hc. cbn [Py.fromhex].
    destruct (Py.isspace c) eqn:Esp.
    + unfold foreign in Hc at 1. rewrite Esp in Hc. cbn in Hc.
      apply IH; [lia | assumption].
    + destruct (Py.hexval c) as [hi|] eqn:Ehi; [|reflexivity].
      destruct rest as [|d rest']; [reflexivity|].
      destruct (Py.hexval d) as [lo|] eqn:Elo; [|reflexivity].
      rewrite IH; [reflexivity | cbn [String.length] in Hlen; lia |].
      unfold foreign in Hc at 1. unfold Py.ishex in Hc at 1. rewrite Ehi in Hc.
      rewrite andb_false_r in Hc. cbn [orb contains] in Hc.
      unfold foreign in Hc at 1. unfold Py.ishex in Hc at 1. rewrite Elo in Hc.
      rewrite andb_false_r in Hc. exact Hc.
Qed.

(** [bytes.fromhex] raises on every string with a character that is
    neither a hexadecimal digit nor white space. *)
Lemma fromhex_foreign (s : string) :
  contains foreign s = true -> Py.fromhex s = None.
Proof. apply (fromhex_foreign_aux (String.length s)). lia. Qed.

Lemma foreign_content_rejected (w : World) (hex : string) :
  Py.len hex = dest_len w ->
  contains foreign hex = true ->
  destination_hash_of w hex = inl content_message.
Proof.
  intros Hlen Hc. unfold destination_hash_of. fold (dest_len w).
  rewrite Hlen, Z.eqb_refl. cbn [negb]. rewrite fromhex_foreign by assumption.
  reflexivity.
Qed.

(** A destination is refused with one of the two messages only. *)
Lemma destination_messages (w : World) (hex msg : string) :
  destination_hash_of w hex = inl msg ->
  msg = length_message w \/ msg = content_message.
Proof.
  unfold destination_hash_of. fold (dest_len w).
  destruct (negb (Py.len hex =? dest_len w)).
  - intros [= <-]. left. reflexivity.
  - destruct (Py.fromhex hex); [discriminate|]. intros [= <-]. right. reflexivity.
Qed.

(** A refused name ends the run in [exit()] after its message, before
    anything else is done. *)
Lemma name_refused (w : World) (fuel : nat) (configdir : option string)
    (hex : string) (size : option Z) (name : string) (verbosity : Z) (msg : string) :
  app_and_aspects_from_name w name = inl msg ->
  run w fuel configdir hex size (Some name) verbosity = rejected msg.
Proof.
  intros Hname. unfold run, program_setup. rewrite Hname. reflexivity.
Qed.

(** A refused destination ends the run in [exit()] after its message,
    before anything else is done. *)
Lemma destination_refused (w : World) (fuel : nat) (configdir : option string)
    (hex : string) (size : option Z) (name : string) (verbosity : Z)
    (app_name : string) (aspects : list string) (msg : string) :
  app_and_aspects_from_name w name = inr (app_name, aspects) ->
  destination_hash_of w hex = inl msg ->
  run w fuel configdir hex size (Some name) verbosity = rejected msg.
Proof.
  intros Hname Hhash. unfold run, program_setup. rewrite Hname, Hhash. reflexivity.
Qed.

Lemma rejected_status (msg : string) : exit_status (rejected msg) = Some 0.
Proof. reflexivity. Qed.

(** ** The report *)

Lemma report_not_delivered (w : World) (h : bytes) (s : State) :
  status w (status_reads s) <> DELIVERED ->
  report w h s = Val tt (read_logged w s [Print ("Probe timed out" ++ Py.LF)]).
Proof.
  intros Hst. unfold report. unfold bind at 1. unfold read_status.
  destruct (status w (status_reads s)) eqn:E; try congruence;
    cbn [Status_eqb]; unfold print, print_end, emit, read_logged;
    cbn [trace path_queries status_reads]; rewrite E, <- app_assoc; reflexivity.
Qed.

Lemma report_delivered (w : World) (h : bytes) (s : State) :
  status w (status_reads s) = DELIVERED ->
  report w h s =
  (reception_stats <- reception_stats_of w ;;
   print (reply_text w (rttstring_of w (get_rtt w)) (hops_to w h) reception_stats))
    (read_logged w s [HopsTo h; GetRtt]).
Proof.
  intros Hst. unfold report. unfold bind at 1. unfold read_status.
  rewrite Hst. cbn [Status_eqb].
  unfold bind at 1. unfold emit at 1. cbn [trace path_queries status_reads].
  unfold bind at 1. unfold emit at 1. cbn [trace path_queries status_reads].
  unfold read_logged. rewrite Hst, <- !app_assoc. reflexivity.
Qed.

Lemma stats_shared (w : World) (p : ProofPacket) (s : State) :
  is_connected_to_shared_instance w = true ->
  proof_packet w = Some p ->
  reception_stats_of w s =
  Val (rssi_stats w (get_packet_rssi w (packet_hash p))
       ++ snr_stats w (get_packet_snr w (packet_hash p)))
      (logged s [GetPacketRssi (packet_hash p); GetPacketSnr (packet_hash p)]).
Proof.
  intros Hsh Hpp. unfold reception_stats_of. rewrite Hsh, Hpp.
  step. unfold logged. rewrite <- app_assoc. reflexivity.
Qed.

Lemma stats_shared_no_packet (w : World) (s : State) :
  is_connected_to_shared_instance w = true ->
  proof_packet w = None ->
  reception_stats_of w s = Stop (Raise "AttributeError") s.
Proof.
  intros Hsh Hpp. unfold reception_stats_of. rewrite Hsh, Hpp. reflexivity.
Qed.

Lemma stats_direct (w : World) (p : ProofPacket) (s : State) :
  is_connected_to_shared_instance w = false ->
  proof_packet w = Some p ->
  reception_stats_of w s = Val (rssi_stats w (rssi p) ++ snr_stats w (snr p)) s.
Proof.
  intros Hsh Hpp. unfold reception_stats_of. rewrite Hsh, Hpp. reflexivity.
Qed.

Lemma stats_direct_no_packet (w : World) (s : State) :
  is_connected_to_shared_instance w = false ->
  proof_packet w = None ->
  reception_stats_of w s = Val "" s.
Proof.
  intros Hsh Hpp. unfold reception_stats_of. rewrite Hsh, Hpp. reflexivity.
Qed.

(** The program from the end of the receipt loop on. *)
Lemma program_to_report (w : World) (fuel : nat) (configdir : option string)
    (hex : string) (size : option Z) (name : string) (verbosity : Z)
    (app_name : string) (aspects : list string) (h : bytes) (k n : nat) :
  app_and_aspects_from_name w name = inr (app_name, aspects) ->
  destination_hash_of w hex = inr h ->
  path_after w h k ->
  (k < fuel)%nat ->
  0 <= size_of size ->
  raw_len w (size_of size) <= MTU w ->
  settles_after w n ->
  (n < fuel)%nat ->
  run w fuel configdir hex size (Some name) verbosity =
  report w h
    (mkState (trace_to_sent w configdir verbosity h (size_of size) k
              ++ receipt_ticks n 0
              ++ [ReadStatus (status w n); Print ((Py.BS ++ Py.BS ++ " ") ++ Py.LF); Flush])
             (S (S k)) (S n)).
Proof.
  intros Hname Hhash Hpath Hk Hsize Hraw [Hsent Hnot] Hn.
  unfold run. rewrite (program_to_wait w fuel configdir hex size name verbosity
                         app_name aspects h k) by assumption.
  unfold bind at 1.
  rewrite (wait_receipt_settled w n); cbn [trace path_queries status_reads];
    [| intros j Hj; apply Hsent; lia | exact Hnot | exact Hn].
  unfold after_wait. step. cbn [Nat.add].
  rewrite <- !app_assoc. reflexivity.
Qed.

(** ** The receipt wait *)

(** C1.  Once the probe is sent, the program polls [receipt.status], one
    100 ms sleep per read that sees [SENT].  It has no timeout of its
    own: while every read sees [SENT] the run is still polling, whatever
    the fuel.  It leaves the loop at the first read that does not see
    [SENT], and when the status it then reads is not [DELIVERED] it
    prints "Probe timed out", that line and nothing more, and returns. *)
Theorem receipt_wait_until_settled (w : World) (fuel : nat) (configdir : option string)
    (hex : string) (size : option Z) (name : string) (verbosity : Z)
    (app_name : string) (aspects : list string) (h : bytes) (k : nat) :
  app_and_aspects_from_name w name = inr (app_name, aspects) ->
  destination_hash_of w hex = inr h ->
  path_after w h k ->
  (k < fuel)%nat ->
  0 <= size_of size ->
  raw_len w (size_of size) <= MTU w ->
  let sent := trace_to_sent w configdir verbosity h (size_of size) k in
  let r := run w fuel configdir hex size (Some name) verbosity in
  ((forall j, (j < fuel)%nat -> status w j = SENT) ->
   r = Stop OutOfFuel (mkState (sent ++ receipt_ticks fuel 0) (S (S k)) fuel) /\
   count is_sleep (receipt_ticks fuel 0) = fuel) /\
  (forall n, settles_after w n -> (n < fuel)%nat ->
     let polled := (sent ++ receipt_ticks n 0
                    ++ [ReadStatus (status w n);
                        Print ((Py.BS ++ Py.BS ++ " ") ++ Py.LF); Flush])%list in
     count is_sleep (receipt_ticks n 0) = n /\
     (exists rest, trace_of r = (polled ++ ReadStatus (status w (S n)) :: rest)%list) /\
     (status w (S n) <> DELIVERED ->
      r = Val tt (mkState (polled ++ [ReadStatus (status w (S n));
                                      Print ("Probe timed out" ++ Py.LF)])
                          (S (S k)) (S (S n))))).
Proof.
  intros Hname Hhash Hpath Hk Hsize Hraw sent r. split.
  - intros Hsent. split; [|apply sleeps_receipt_ticks].
    unfold r, run.
    rewrite (program_to_wait w fuel configdir hex size name verbosity
               app_name aspects h k) by assumption.
    unfold bind at 1. rewrite wait_receipt_in_flight; [reflexivity|].
    intros j Hj. apply Hsent. exact Hj.
  - intros n Hsettle Hn polled.
    split; [apply sleeps_receipt_ticks|].
    assert (Hr : r = report w h (mkState polled (S (S k)) (S n))).
    { unfold r, polled, sent.
      apply (program_to_report w fuel configdir hex size name verbosity
               app_name aspects h k n); assumption. }
    split.
    + rewrite Hr. unfold report. unfold bind at 1. unfold read_status at 1.
      cbn [trace path_queries status_reads].
      match goal with
      | |- context [trace_of (?m ?s)] =>
          assert (Ha : adds (fun _ => false) m); [|destruct (Ha s) as [d [Ed _]]]
      end.
      { destruct (Status_eqb (status w (S n)) DELIVERED).
        - apply adds_bind; [apply adds_emit; reflexivity|intros _].
          apply adds_bind; [apply adds_emit; reflexivity|intros _].
          apply adds_bind; [|intros stats; apply adds_emit; reflexivity].
          unfold reception_stats_of.
          destruct (is_connected_to_shared_instance w), (proof_packet w);
            try apply adds_ret; try apply adds_raise.
          apply adds_bind; [apply adds_emit; reflexivity|intros _].
          apply adds_bind; [apply adds_emit; reflexivity|intros _].
          apply adds_ret.
        - apply adds_emit. reflexivity. }
      exists d.
      match type of Ed with
      | trace (state_of ?x) = _ =>
          replace (trace_of x) with (trace (state_of x)) by (destruct x; reflexivity)
      end.
      rewrite Ed. cbn [trace]. rewrite <- app_assoc. reflexivity.
    + intros Hnd. rewrite Hr, report_not_delivered by exact Hnd.
      unfold read_logged. cbn [trace path_queries status_reads]. reflexivity.
Qed.

Lemma lab_remote_path : path_after Lab.remote Lab.hash 0.
Proof. split; [intros j Hj; lia | reflexivity]. Qed.

Lemma lab_remote_settles : settles_after Lab.remote 1.
Proof.
  split; [|discriminate].
  intros j Hj. assert (j = 0%nat) as -> by lia. reflexivity.
Qed.

Lemma receipt_wait_until_settled_witness :
  path_after Lab.remote Lab.hash 0 /\
  settles_after Lab.remote 1 /\
  run Lab.remote 5 None Lab.hex None (Some "app.aspect") 0 =
  Val tt (mkState
            (trace_to_sent Lab.remote None 0 Lab.hash 16 0 ++ receipt_ticks 1 0
             ++ [ReadStatus FAILED; Print ((Py.BS ++ Py.BS ++ " ") ++ Py.LF); Flush;
                 ReadStatus FAILED; Print ("Probe timed out" ++ Py.LF)])
            2 3).
Proof.
  split; [exact lab_remote_path|]. split; [exact lab_remote_settles|].
  destruct (receipt_wait_until_settled Lab.remote 5 None Lab.hex None "app.aspect" 0
              "app" ["aspect"] Lab.hash 0 eq_refl eq_refl lab_remote_path
              ltac:(lia) ltac:(discriminate) ltac:(discriminate)) as [_ H].
  destruct (H 1%nat lab_remote_settles ltac:(lia)) as [_ [_ Hfinal]].
  rewrite Hfinal by discriminate. reflexivity.
Defined.

(** ** The stages of the program *)

(** The report reads the status first, and only adds to the trace. *)
Lemma adds_report (p : Event -> bool) (w : World) (h : bytes) :
  (forall e, p e = true -> exists h', e = RequestPath h') ->
  adds p (report w h).
Proof.
  intros Hp.
  assert (Hq : forall e, (forall h', e <> RequestPath h') -> p e = false).
  { intros e He. destruct (p e) eqn:E; [|reflexivity].
    destruct (Hp e E) as [h' ->]. exfalso. apply (He h'). reflexivity. }
  unfold report, reception_stats_of, print, print_end.
  repeat first
    [ apply adds_ret | apply adds_raise
    | apply adds_emit; apply Hq; discriminate
    | apply adds_read_status; intros; apply Hq; discriminate
    | apply adds_bind; [|intros ?]
    | match goal with |- adds _ (if ?c then _ else _) => destruct c end
    | match goal with |- adds _ (match ?c with _ => _ end) => destruct c end ].
Qed.

(** Whatever follows the path request adds no request of its own. *)
Lemma adds_after_discovery (w : World) (fuel : nat) (h : bytes) (size : Z)
    (more_output : bool) :
  adds is_request (after_discovery w fuel h size more_output).
Proof.
  unfold after_discovery, more_of, print, print_end.
  repeat first
    [ apply adds_report; intros [] He; try discriminate He; eexists; reflexivity
    | apply adds_ret | apply adds_exit | apply adds_raise
    | apply adds_emit; reflexivity
    | apply adds_wait_path; intros; reflexivity
    | apply adds_wait_receipt; intros; reflexivity
    | apply adds_bind; [|intros ?]
    | match goal with |- adds _ (if ?c then _ else _) => destruct c end
    | match goal with |- adds _ (match ?c with _ => _ end) => destruct c end ].
Qed.

Lemma trace_of_state (r : Res unit) : trace_of r = trace (state_of r).
Proof. destruct r; reflexivity. Qed.

(** With a well-formed name and destination the program initialises the
    transport, polls the path once, requests it if it is unknown, and
    goes on with [after_discovery]. *)
Lemma program_stages (w : World) (fuel : nat) (configdir : option string)
    (hex : string) (size : option Z) (name : string) (verbosity : Z)
    (app_name : string) (aspects : list string) (h : bytes) :
  app_and_aspects_from_name w name = inr (app_name, aspects) ->
  destination_hash_of w hex = inr h ->
  run w fuel configdir hex size (Some name) verbosity =
  after_discovery w fuel h (size_of size) (0 <? verbosity)
    (mkState (ReticulumInit configdir (3 + (verbosity - 1)) :: discovery_events w h) 1 0).
Proof.
  intros Hname Hhash. unfold run, program_setup. rewrite Hname, Hhash.
  fold (size_of size).
  unfold bind at 1. unfold emit at 1. cbn [trace path_queries status_reads init].
  unfold bind at 1. unfold has_path_call at 1. cbn [trace path_queries status_reads].
  unfold bind at 1. unfold discovery_events.
  destruct (has_path w h 0); cbn [negb]; reflexivity.
Qed.

Lemma count_discovery_requests (w : World) (h : bytes) :
  count is_request (discovery_events w h) = if has_path w h 0 then 0%nat else 1%nat.
Proof. unfold discovery_events. destruct (has_path w h 0); reflexivity. Qed.

Lemma count_discovery_sends (w : World) (h : bytes) :
  count is_send (discovery_events w h) = 0%nat.
Proof. unfold discovery_events. destruct (has_path w h 0); reflexivity. Qed.

(** Within any fuel, either some poll of the loop finds the path or
    every one of them fails. *)
Lemma path_found_or_not (w : World) (h : bytes) (fuel : nat) :
  (exists k, (k < fuel)%nat /\ path_after w h k) \/
  (forall j, (1 <= j <= fuel)%nat -> has_path w h j = false).
Proof.
  induction fuel as [|fuel [[k [Hk Hp]] | Hno]].
  - right. intros j Hj. lia.
  - left. exists k. split; [lia | exact Hp].
  - destruct (has_path w h (S fuel)) eqn:E.
    + left. exists fuel. split; [lia|]. split; assumption.
    + right. intros j Hj. destruct (Nat.eq_dec j (S fuel)) as [->|Hne];
        [exact E | apply Hno; lia].
Qed.

(** ** Path discovery *)

(** The run while the path loop polls in vain. *)
Lemma program_path_unknown (w : World) (fuel : nat) (configdir : option string)
    (hex : string) (size : option Z) (name : string) (verbosity : Z)
    (app_name : string) (aspects : list string) (h : bytes) :
  app_and_aspects_from_name w name = inr (app_name, aspects) ->
  destination_hash_of w hex = inr h ->
  (forall j, (1 <= j <= fuel)%nat -> has_path w h j = false) ->
  run w fuel configdir hex size (Some name) verbosity =
  Stop OutOfFuel
    (mkState (ReticulumInit configdir (3 + (verbosity - 1)) :: discovery_events w h
              ++ path_ticks h fuel 0) (S fuel) 0).
Proof.
  intros Hname Hhash Hno.
  rewrite (program_stages w fuel configdir hex size name verbosity app_name aspects h)
    by assumption.
  unfold after_discovery. unfold bind at 1.
  rewrite wait_path_unknown; cbn [trace path_queries status_reads].
  - reflexivity.
  - intros j Hj. apply Hno. lia.
Qed.

(** The run from the poll that finds the path on. *)
Lemma program_path_found (w : World) (fuel : nat) (configdir : option string)
    (hex : string) (size : option Z) (name : string) (verbosity : Z)
    (app_name : string) (aspects : list string) (h : bytes) (k : nat) :
  app_and_aspects_from_name w name = inr (app_name, aspects) ->
  destination_hash_of w hex = inr h ->
  path_after w h k ->
  (k < fuel)%nat ->
  exists rest,
    trace_of (run w fuel configdir hex size (Some name) verbosity) =
    (ReticulumInit configdir (3 + (verbosity - 1)) :: discovery_events w h
     ++ path_ticks h k 0 ++ HasPath h true :: rest)%list.
Proof.
  intros Hname Hhash [Hno Hyes] Hk.
  rewrite (program_stages w fuel configdir hex size name verbosity app_name aspects h)
    by assumption.
  unfold after_discovery. unfold bind at 1.
  rewrite (wait_path_found w h k); cbn [trace path_queries status_reads];
    [| intros j Hj; apply Hno; lia | exact Hyes | exact Hk].
  match goal with
  | |- context [trace_of (?m ?s)] =>
      assert (Ha : adds is_request m); [|destruct (Ha s) as [d [Ed _]]]
  end.
  { unfold more_of, print, print_end.
    repeat first
      [ apply adds_report; intros [] He; try discriminate He; eexists; reflexivity
      | apply adds_ret | apply adds_exit | apply adds_raise
      | apply adds_emit; reflexivity
      | apply adds_wait_receipt; intros; reflexivity
      | apply adds_bind; [|intros ?]
      | match goal with |- adds _ (if ?c then _ else _) => destruct c end
      | match goal with |- adds _ (match ?c with _ => _ end) => destruct c end ]. }
  exists d. rewrite trace_of_state, Ed. cbn [trace].
  cbn [app]. rewrite <- !app_assoc. reflexivity.
Qed.

(** C4.  With a well-formed name and destination: the run issues exactly
    one path request when the first poll finds no path and none when it
    finds one, whatever happens later.  The request follows that poll
    at once.  The path is then polled, with one 100 ms sleep per poll in
    vain, until a poll finds it, and nothing is sent before that poll;
    while every poll fails the run is still polling and nothing is
    sent. *)
Theorem path_requested_once_then_polled (w : World) (fuel : nat)
    (configdir : option string) (hex : string) (size : option Z) (name : string)
    (verbosity : Z) (app_name : string) (aspects : list string) (h : bytes) :
  app_and_aspects_from_name w name = inr (app_name, aspects) ->
  destination_hash_of w hex = inr h ->
  let r := run w fuel configdir hex size (Some name) verbosity in
  let start := ReticulumInit configdir (3 + (verbosity - 1)) :: discovery_events w h in
  count is_request (trace_of r) = (if has_path w h 0 then 0%nat else 1%nat) /\
  (has_path w h 0 = false ->
   start = [ReticulumInit configdir (3 + (verbosity - 1)); HasPath h false;
            RequestPath h;
            Print (("Path to " ++ prettyhexrep w h ++ " requested  ") ++ " "); Flush]) /\
  (has_path w h 0 = true ->
   start = [ReticulumInit configdir (3 + (verbosity - 1)); HasPath h true]) /\
  (forall k, path_after w h k -> (k < fuel)%nat ->
     (exists rest,
        trace_of r = (start ++ path_ticks h k 0 ++ HasPath h true :: rest)%list) /\
     count is_sleep (path_ticks h k 0) = k /\
     count is_send (start ++ path_ticks h k 0) = 0%nat) /\
  ((forall j, (1 <= j <= fuel)%nat -> has_path w h j = false) ->
   r = Stop OutOfFuel (mkState (start ++ path_ticks h fuel 0) (S fuel) 0) /\
   count is_send (trace_of r) = 0%nat) /\
  (In PacketSend (trace_of r) ->
   exists pre post,
     trace_of r = (pre ++ HasPath h true :: post)%list /\ ~ In PacketSend pre).
Proof.
  intros Hname Hhash r start.
  assert (Hquiet : forall k, count is_send (start ++ path_ticks h k 0) = 0%nat).
  { intros k. unfold start.
    change (ReticulumInit configdir (3 + (verbosity - 1)) :: discovery_events w h)
      with ([ReticulumInit configdir (3 + (verbosity - 1))] ++ discovery_events w h)%list.
    rewrite !count_app, count_discovery_sends.
    rewrite count_path_ticks by (intros; reflexivity). reflexivity. }
  assert (Hfound : forall k, path_after w h k -> (k < fuel)%nat ->
            exists rest,
              trace_of r = (start ++ path_ticks h k 0 ++ HasPath h true :: rest)%list).
  { intros k Hp Hk. unfold r, start.
    apply (program_path_found w fuel configdir hex size name verbosity
             app_name aspects h k); assumption. }
  assert (Hnever : (forall j, (1 <= j <= fuel)%nat -> has_path w h j = false) ->
            r = Stop OutOfFuel (mkState (start ++ path_ticks h fuel 0) (S fuel) 0)).
  { intros Hno. unfold r, start.
    apply (program_path_unknown w fuel configdir hex size name verbosity
             app_name aspects h); assumption. }
  repeat split.
  - unfold r.
    rewrite (program_stages w fuel configdir hex size name verbosity app_name aspects h)
      by assumption.
    destruct (adds_after_discovery w fuel h (size_of size) (0 <? verbosity)
                (mkState (ReticulumInit configdir (3 + (verbosity - 1))
                          :: discovery_events w h) 1 0)) as [d [Ed Cd]].
    rewrite trace_of_state, Ed. cbn [trace].
    change (ReticulumInit configdir (3 + (verbosity - 1)) :: discovery_events w h)
      with ([ReticulumInit configdir (3 + (verbosity - 1))] ++ discovery_events w h)%list.
    rewrite !count_app, count_discovery_requests, Cd.
    destruct (has_path w h 0); reflexivity.
  - intros H0. unfold start, discovery_events. rewrite H0. reflexivity.
  - intros H0. unfold start, discovery_events. rewrite H0. reflexivity.
  - apply Hfound; assumption.
  - apply sleeps_path_ticks.
  - apply Hquiet.
  - apply Hnever. assumption.
  - rewrite (Hnever H). cbn [trace_of trace]. apply Hquiet.
  - intros Hin.
    destruct (path_found_or_not w h fuel) as [[k [Hk Hp]] | Hno].
    + destruct (Hfound k Hp Hk) as [rest Hrest].
      exists (start ++ path_ticks h k 0)%list, rest. split.
      * rewrite Hrest, <- app_assoc. reflexivity.
      * apply (count_zero_not_in is_send); [apply Hquiet | reflexivity].
    + exfalso. rewrite (Hnever Hno) in Hin. cbn [trace_of trace] in Hin.
      revert Hin. apply (count_zero_not_in is_send); [apply Hquiet | reflexivity].
Qed.

Lemma lab_far_path : path_after Lab.far Lab.hash 2.
Proof.
  split; [|reflexivity].
  intros j Hj. assert (j = 1 \/ j = 2)%nat as [-> | ->] by lia; reflexivity.
Qed.

Lemma path_requested_once_then_polled_witness :
  path_after Lab.far Lab.hash 2 /\
  count is_request (trace_of (run Lab.far 9 None Lab.hex None (Some "app.aspect") 0)) = 1%nat.
Proof.
  split; [exact lab_far_path|].
  destruct (path_requested_once_then_polled Lab.far 9 None Lab.hex None "app.aspect" 0
              "app" ["aspect"] Lab.hash eq_refl eq_refl) as [Hcount _].
  exact Hcount.
Defined.

(** ** The size ceiling *)

(** C3.  When the packed frame of the probe exceeds the MTU, [pack]
    fails; the program prints the length of the frame and the MTU, and
    ends with exit status 1; nothing has been sent. *)
Theorem oversized_probe_aborted (w : World) (fuel : nat) (configdir : option string)
    (hex : string) (size : option Z) (name : string) (verbosity : Z)
    (app_name : string) (aspects : list string) (h : bytes) (k : nat) :
  app_and_aspects_from_name w name = inr (app_name, aspects) ->
  destination_hash_of w hex = inr h ->
  path_after w h k ->
  (k < fuel)%nat ->
  0 <= size_of size ->
  MTU w < raw_len w (size_of size) ->
  let r := run w fuel configdir hex size (Some name) verbosity in
  pack w (size_of size) = inl (raw_len w (size_of size)) /\
  r = Stop (Exit (Some 1))
        (mkState
           (ReticulumInit configdir (3 + (verbosity - 1)) :: discovery_events w h
            ++ path_ticks h k 0
            ++ [HasPath h true; IdentityRecall h; Urandom (size_of size);
                PacketPack (size_of size);
                Print (("Error: Probe packet size of "
                        ++ Py.str_int (raw_len w (size_of size))
                        ++ " bytes exceed MTU of " ++ Py.str_int (MTU w) ++ " bytes")
                       ++ Py.LF)])
           (S (S k)) 0) /\
  exit_status r = Some 1 /\
  count is_send (trace_of r) = 0%nat.
Proof.
  intros Hname Hhash [Hno Hyes] Hk Hsize Hraw r.
  assert (Hpack : pack w (size_of size) = inl (raw_len w (size_of size))).
  { unfold pack. destruct (MTU w <? raw_len w (size_of size)) eqn:E; [reflexivity|].
    apply Z.ltb_ge in E. lia. }
  assert (Hr : r = Stop (Exit (Some 1))
        (mkState
           (ReticulumInit configdir (3 + (verbosity - 1)) :: discovery_events w h
            ++ path_ticks h k 0
            ++ [HasPath h true; IdentityRecall h; Urandom (size_of size);
                PacketPack (size_of size);
                Print (("Error: Probe packet size of "
                        ++ Py.str_int (raw_len w (size_of size))
                        ++ " bytes exceed MTU of " ++ Py.str_int (MTU w) ++ " bytes")
                       ++ Py.LF)])
           (S (S k)) 0)).
  { unfold r.
    rewrite (program_stages w fuel configdir hex size name verbosity app_name aspects h)
      by assumption.
    unfold after_discovery. unfold bind at 1.
    rewrite (wait_path_found w h k); cbn [trace path_queries status_reads];
      [| intros j Hj; apply Hno; lia | exact Hyes | exact Hk].
    unfold bind at 1. unfold emit at 1. cbn [trace path_queries status_reads].
    unfold bind at 1. unfold emit at 1. cbn [trace path_queries status_reads].
    unfold bind at 1.
    destruct (size_of size <? 0) eqn:E; [apply Z.ltb_lt in E; lia|].
    unfold ret at 1.
    unfold bind at 1. unfold emit at 1. cbn [trace path_queries status_reads].
    rewrite Hpack. step.
    replace (1 + S k)%nat with (S (S k)) by lia.
    cbn [app]. rewrite <- !app_assoc. reflexivity. }
  split; [exact Hpack|]. split; [exact Hr|].
  rewrite Hr. split; [reflexivity|].
  cbn [trace_of trace].
  change (ReticulumInit configdir (3 + (verbosity - 1)) :: discovery_events w h
          ++ path_ticks h k 0 ++ ?l)%list
    with ([ReticulumInit configdir (3 + (verbosity - 1))] ++ discovery_events w h
          ++ path_ticks h k 0 ++ l)%list.
  rewrite !count_app, count_discovery_sends.
  rewrite count_path_ticks by (intros; reflexivity). reflexivity.
Qed.

Lemma lab_plain_path : path_after Lab.plain Lab.hash 0.
Proof. split; [intros j Hj; lia | reflexivity]. Qed.

Lemma oversized_probe_aborted_witness :
  path_after Lab.plain Lab.hash 0 /\
  MTU Lab.plain < raw_len Lab.plain 600 /\
  exit_status (run Lab.plain 4 None Lab.hex (Some 600) (Some "app.aspect") 0) = Some 1 /\
  count is_send (trace_of (run Lab.plain 4 None Lab.hex (Some 600) (Some "app.aspect") 0))
  = 0%nat.
Proof.
  split; [exact lab_plain_path|]. split; [reflexivity|].
  destruct (oversized_probe_aborted Lab.plain 4 None Lab.hex (Some 600) "app.aspect" 0
              "app" ["aspect"] Lab.hash 0 eq_refl eq_refl lab_plain_path
              ltac:(lia) ltac:(discriminate) eq_refl) as [_ [_ [Hstatus Hsend]]].
  split; assumption.
Defined.

(** ** The verbose part of the "Sent" line *)

Lemma bind_assoc {A B C} (m : M A) (k : A -> M B) (k' : B -> M C) (s : State) :
  bind (bind m k) k' s = bind m (fun a => bind (k a) k') s.
Proof. unfold bind. destruct (m s); reflexivity. Qed.

(** What follows the "Sent" line starts with a read of the status. *)
Lemma wait_reads_first (w : World) (h : bytes) (fuel : nat) (s : State) :
  (0 < fuel)%nat ->
  exists d,
    trace (state_of ((wait_receipt w fuel 0 ;; after_wait w h) s)) =
    (trace s ++ ReadStatus (status w (status_reads s)) :: d)%list.
Proof.
  intros Hfuel. destruct fuel as [|fuel]; [lia|].
  cbn [wait_receipt]. rewrite bind_assoc.
  unfold bind at 1. unfold read_status at 1.
  match goal with
  | |- context [state_of (?m ?s)] =>
      assert (Ha : adds (fun _ => false) m); [|destruct (Ha s) as [d [Ed _]]]
  end.
  { unfold after_wait, print, print_end.
    repeat first
      [ apply adds_report; intros ? He; discriminate He
      | apply adds_ret
      | apply adds_emit; reflexivity
      | apply adds_tick; intros; reflexivity
      | apply adds_wait_receipt; intros; reflexivity
      | apply adds_bind; [|intros ?]
      | match goal with |- adds _ (if ?c then _ else _) => destruct c end ]. }
  exists d. rewrite Ed. cbn [trace]. rewrite <- app_assoc. reflexivity.
Qed.

(** C7.  With the verbosity flag set, the program looks up the next hop
    and the name of its interface right after the send, and prints them
    in the "Sent" line before the first read of the receipt's status:
    " via " and the next hop when there is one, nothing when there is
    none; " on " and the interface name when the name is not "None",
    nothing when it is. *)
Theorem verbose_sent_line (w : World) (fuel : nat) (configdir : option string)
    (hex : string) (size : option Z) (name : string) (verbosity : Z)
    (app_name : string) (aspects : list string) (h : bytes) (k : nat) :
  app_and_aspects_from_name w name = inr (app_name, aspects) ->
  destination_hash_of w hex = inr h ->
  path_after w h k ->
  (k < fuel)%nat ->
  0 <= size_of size ->
  raw_len w (size_of size) <= MTU w ->
  0 < verbosity ->
  let r := run w fuel configdir hex size (Some name) verbosity in
  let if_name := get_next_hop_if_name w h in
  (exists rest,
     trace_of r =
     ((ReticulumInit configdir (3 + (verbosity - 1)) :: discovery_events w h
       ++ path_ticks h k 0
       ++ [HasPath h true; IdentityRecall h; Urandom (size_of size);
           PacketPack (size_of size); PacketSend; GetNextHop h; GetNextHopIfName h]
       ++ (if (if_name =? "None")%string then [] else [GetNextHopIfName h])
       ++ [Print (sent_line w h (size_of size) (via_str w h ++ if_str w h))])
      ++ ReadStatus (status w 0) :: rest)%list) /\
  (forall n, get_next_hop w h = Some n -> via_str w h = " via " ++ prettyhexrep w n) /\
  (get_next_hop w h = None -> via_str w h = "") /\
  (if_name <> "None" -> if_str w h = " on " ++ if_name) /\
  (if_name = "None" -> if_str w h = "").
Proof.
  intros Hname Hhash Hpath Hk Hsize Hraw Hv r if_name.
  repeat split.
  - unfold r, run.
    rewrite (program_to_wait w fuel configdir hex size name verbosity
               app_name aspects h k) by assumption.
    destruct (wait_reads_first w h fuel
                (mkState (trace_to_sent w configdir verbosity h (size_of size) k)
                         (S (S k)) 0) ltac:(lia)) as [d Ed].
    exists d. rewrite trace_of_state, Ed. cbn [trace].
    unfold trace_to_sent, more_events, more_text.
    assert (Hon : (0 <? verbosity) = true) by (apply Z.ltb_lt; exact Hv).
    rewrite Hon. fold if_name.
    cbn [app]. rewrite <- !app_assoc. cbn [app]. reflexivity.
  - intros n Hn. unfold via_str. rewrite Hn. reflexivity.
  - intros Hn. unfold via_str. rewrite Hn. reflexivity.
  - intros Hne. unfold if_str. fold if_name.
    destruct (String.eqb_spec if_name "None"); [contradiction | reflexivity].
  - intros He. unfold if_str. fold if_name. rewrite He. reflexivity.
Qed.

Lemma verbose_sent_line_witness :
  path_after Lab.far Lab.hash 2 /\
  0 < 1 /\
  via_str Lab.far Lab.hash = " via <0102>" /\
  if_str Lab.far Lab.hash = " on eth0".
Proof.
  split; [exact lab_far_path|]. split; [reflexivity|].
  destruct (verbose_sent_line Lab.far 9 None Lab.hex None "app.aspect" 1
              "app" ["aspect"] Lab.hash 2 eq_refl eq_refl lab_far_path
              ltac:(lia) ltac:(discriminate) ltac:(discriminate) eq_refl)
    as [_ [Hvia [_ [Hon _]]]].
  split; [apply (Hvia [x01; x02]%byte); reflexivity | apply Hon; discriminate].
Defined.

(** ** The delivery report *)

(** The report of a delivered probe, once the signal statistics are
    obtained. *)
Lemma report_text (w : World) (h : bytes) (s s' : State) (stats : string) :
  status w (status_reads s) = DELIVERED ->
  reception_stats_of w (read_logged w s [HopsTo h; GetRtt]) = Val stats s' ->
  report w h s =
  Val tt (logged s' [Print (reply_text w (rttstring_of w (get_rtt w)) (hops_to w h) stats
                            ++ Py.LF)]).
Proof.
  intros Hst Hstats. rewrite report_delivered by exact Hst.
  unfold bind. rewrite Hstats. reflexivity.
Qed.

(** C5.  The report of a delivered probe shows the round-trip time
    rounded to 3 decimals and followed by " seconds" when it is at least
    1, and its thousandfold rounded to 3 decimals and followed by
    " milliseconds" otherwise.  A round-trip time of exactly 1.0 is on
    the seconds side, and reads "1.0 seconds" as [round] and [str] give
    "1.0" for it. *)
Theorem round_trip_time_format (w : World) (h : bytes) (s s' : State) (stats : string) :
  status w (status_reads s) = DELIVERED ->
  reception_stats_of w (read_logged w s [HopsTo h; GetRtt]) = Val stats s' ->
  let rtt := get_rtt w in
  exists rttstring,
    report w h s =
    Val tt (logged s' [Print (("Valid reply received from "
                               ++ prettyhexrep w (receipt_destination_hash w)
                               ++ Py.LF ++ "Round-trip time is " ++ rttstring
                               ++ " over " ++ Py.str_int (hops_to w h)
                               ++ " hop" ++ ms_of (hops_to w h) ++ stats) ++ Py.LF)]) /\
    (PrimFloat.leb 1%float rtt = true ->
     rttstring = str_float w (round3 w rtt) ++ " seconds") /\
    (PrimFloat.leb 1%float rtt = false ->
     rttstring = str_float w (round3 w (PrimFloat.mul rtt 1000%float)) ++ " milliseconds") /\
    (rtt = 1%float ->
     rttstring = str_float w (round3 w 1%float) ++ " seconds" /\
     (str_float w (round3 w 1%float) = "1.0" -> rttstring = "1.0 seconds")).
Proof.
  intros Hst Hstats rtt. exists (rttstring_of w rtt). split; [|split; [|split]].
  - apply report_text; assumption.
  - intros Hge. unfold rttstring_of. rewrite Hge. reflexivity.
  - intros Hlt. unfold rttstring_of. rewrite Hlt. reflexivity.
  - intros Hone. rewrite Hone. unfold rttstring_of.
    change (PrimFloat.leb 1 1) with true. cbv iota.
    split; [reflexivity|]. intros Hstr. rewrite Hstr. reflexivity.
Qed.

Lemma round_trip_time_format_witness :
  status Lab.far 2 = DELIVERED /\
  get_rtt Lab.far = 1%float /\
  report Lab.far Lab.hash (mkState [] 0 2) =
  Val tt (mkState [ReadStatus DELIVERED; HopsTo Lab.hash; GetRtt;
                   GetPacketRssi (packet_hash Lab.packet);
                   GetPacketSnr (packet_hash Lab.packet);
                   Print (("Valid reply received from <0001>" ++ Py.LF
                           ++ "Round-trip time is 1.0 seconds over 2 hops [RSSI -70 dBm]")
                          ++ Py.LF)] 0 3).
Proof.
  split; [reflexivity|]. split; [reflexivity|].
  - destruct (round_trip_time_format Lab.far Lab.hash (mkState [] 0 2)
                (logged (read_logged Lab.far (mkState [] 0 2) [HopsTo Lab.hash; GetRtt])
                        [GetPacketRssi (packet_hash Lab.packet);
                         GetPacketSnr (packet_hash Lab.packet)])
                " [RSSI -70 dBm]" eq_refl eq_refl) as [rttstring [Hrep [_ [_ Hone]]]].
    destruct (Hone eq_refl) as [_ Hstr]. rewrite Hrep, (Hstr eq_refl). reflexivity.
Defined.

(** C8.  The report of a delivered probe shows the hop count followed by
    "hop" exactly when the count is 1, and by "hops" for every other
    count, 0 and the counts above 1 included. *)
Theorem hop_unit_label (w : World) (h : bytes) (s s' : State) (stats : string) :
  status w (status_reads s) = DELIVERED ->
  reception_stats_of w (read_logged w s [HopsTo h; GetRtt]) = Val stats s' ->
  let hops := hops_to w h in
  report w h s =
  Val tt (logged s' [Print (("Valid reply received from "
                             ++ prettyhexrep w (receipt_destination_hash w)
                             ++ Py.LF ++ "Round-trip time is "
                             ++ rttstring_of w (get_rtt w)
                             ++ " over " ++ Py.str_int hops
                             ++ " " ++ hop_unit hops ++ stats) ++ Py.LF)]) /\
  (hop_unit hops = "hop" <-> hops = 1) /\
  (hop_unit hops = "hops" <-> hops <> 1) /\
  hop_unit 0 = "hops" /\
  (1 < hops -> hop_unit hops = "hops").
Proof.
  intros Hst Hstats hops. split; [|split; [|split; [|split]]].
  - rewrite (report_text w h s s' stats) by assumption.
    unfold reply_text, ms_of, hop_unit. fold hops.
    destruct (hops =? 1); reflexivity.
  - unfold hop_unit. destruct (Z.eqb_spec hops 1); split; intros H;
      try reflexivity; try assumption; try discriminate; contradiction.
  - unfold hop_unit. destruct (Z.eqb_spec hops 1); split; intros H;
      try reflexivity; try assumption; try discriminate; contradiction.
  - reflexivity.
  - intros Hgt. unfold hop_unit. destruct (Z.eqb_spec hops 1); [lia | reflexivity].
Qed.

Lemma hop_unit_label_witness :
  status Lab.plain 2 = DELIVERED /\
  report Lab.plain Lab.hash (mkState [] 0 2) =
  Val tt (mkState [ReadStatus DELIVERED; HopsTo Lab.hash; GetRtt;
                   Print (("Valid reply received from <0001>" ++ Py.LF
                           ++ "Round-trip time is 500.0 milliseconds over 1 hop"
                           ++ " [RSSI -81 dBm] [SNR 7.5 dB]") ++ Py.LF)] 0 3).
Proof.
  split; [reflexivity|].
  destruct (hop_unit_label Lab.plain Lab.hash (mkState [] 0 2)
              (read_logged Lab.plain (mkState [] 0 2) [HopsTo Lab.hash; GetRtt])
              " [RSSI -81 dBm] [SNR 7.5 dB]" eq_refl eq_refl) as [Hrep _].
  rewrite Hrep. reflexivity.
Defined.

(** X16.  In the report of a delivered probe, a stand-alone instance
    reads the RSSI and the SNR from the fields of the proof packet, both
    being absent when the packet is; a client of a shared instance, when
    the receipt carries its proof packet, asks the instance for them by
    the packet's hash.  Either value may be absent on its own, and its
    bracketed annotation is left out exactly when it is. *)
Theorem signal_annotations (w : World) (h : bytes) (s : State) :
  status w (status_reads s) = DELIVERED ->
  let line stats :=
    Print (reply_text w (rttstring_of w (get_rtt w)) (hops_to w h) stats ++ Py.LF) in
  let annotation label v unit :=
    match v with
    | Some x => " [" ++ label ++ " " ++ str_num w x ++ " " ++ unit ++ "]"
    | None => ""
    end in
  let field (f : ProofPacket -> option Py.num) :=
    match proof_packet w with
    | Some p => f p
    | None => None
    end in
  (is_connected_to_shared_instance w = true ->
   forall p, proof_packet w = Some p ->
   let reception_rssi := get_packet_rssi w (packet_hash p) in
   let reception_snr := get_packet_snr w (packet_hash p) in
   report w h s =
   Val tt (read_logged w s
             [HopsTo h; GetRtt;
              GetPacketRssi (packet_hash p); GetPacketSnr (packet_hash p);
              line (annotation "RSSI" reception_rssi "dBm"
                    ++ annotation "SNR" reception_snr "dB")])) /\
  (is_connected_to_shared_instance w = false ->
   report w h s =
   Val tt (read_logged w s
             [HopsTo h; GetRtt;
              line (annotation "RSSI" (field rssi) "dBm"
                    ++ annotation "SNR" (field snr) "dB")])) /\
  (forall label v unit, annotation label v unit = "" <-> v = None).
Proof.
  intros Hst line annotation field.
  assert (Hrssi : forall v, rssi_stats w v = annotation "RSSI" v "dBm").
  { intros [x|]; reflexivity. }
  assert (Hsnr : forall v, snr_stats w v = annotation "SNR" v "dB").
  { intros [x|]; reflexivity. }
  split; [|split].
  - intros Hsh p Hpp reception_rssi reception_snr.
    rewrite (report_text w h s _ _ Hst (stats_shared w p _ Hsh Hpp)).
    rewrite Hrssi, Hsnr. unfold logged, read_logged, line.
    cbn [trace path_queries status_reads]. rewrite <- !app_assoc. reflexivity.
  - intros Hsh. unfold field. destruct (proof_packet w) as [p|] eqn:Hpp.
    + rewrite (report_text w h s _ _ Hst (stats_direct w p _ Hsh Hpp)).
      rewrite Hrssi, Hsnr. unfold logged, read_logged, line.
      cbn [trace path_queries status_reads]. rewrite <- !app_assoc. reflexivity.
    + rewrite (report_text w h s _ _ Hst (stats_direct_no_packet w _ Hsh Hpp)).
      unfold logged, read_logged, line, annotation.
      cbn [trace path_queries status_reads]. rewrite <- !app_assoc. reflexivity.
  - intros label [x|] unit; cbn; split; intros H; try reflexivity; discriminate.
Qed.

Lemma signal_annotations_witness :
  status Lab.far 2 = DELIVERED /\
  proof_packet Lab.far = Some Lab.packet /\
  report Lab.far Lab.hash (mkState [] 0 2) =
  Val tt (mkState [ReadStatus DELIVERED; HopsTo Lab.hash; GetRtt;
                   GetPacketRssi (packet_hash Lab.packet);
                   GetPacketSnr (packet_hash Lab.packet);
                   Print (("Valid reply received from <0001>" ++ Py.LF
                           ++ "Round-trip time is 1.0 seconds over 2 hops [RSSI -70 dBm]")
                          ++ Py.LF)] 0 3).
Proof.
  split; [reflexivity|]. split; [reflexivity|].
  destruct (signal_annotations Lab.far Lab.hash (mkState [] 0 2) eq_refl)
    as [Hshared _].
  rewrite (Hshared eq_refl Lab.packet eq_refl). reflexivity.
Defined.

(** C6.  On a shared instance the report of a delivered receipt that
    carries no proof packet asks for no metric and prints no line: line
    139 reads [packet_hash] off the missing packet and raises
    [AttributeError], once the hop count and the round-trip time are
    taken.  The stand-alone branch tests for the missing packet (line
    149) and prints the reply without annotation. *)
Theorem shared_report_needs_packet (w : World) (h : bytes) (s : State) :
  status w (status_reads s) = DELIVERED ->
  is_connected_to_shared_instance w = true ->
  proof_packet w = None ->
  let r := report w h s in
  r = Stop (Raise "AttributeError") (read_logged w s [HopsTo h; GetRtt]) /\
  (forall text, ~ In (Print text) (skipn (List.length (trace s)) (trace_of r))) /\
  (forall packet_hash,
     ~ In (GetPacketRssi packet_hash) (skipn (List.length (trace s)) (trace_of r)) /\
     ~ In (GetPacketSnr packet_hash) (skipn (List.length (trace s)) (trace_of r))).
Proof.
  intros Hst Hsh Hpp r.
  assert (Hr : r = Stop (Raise "AttributeError") (read_logged w s [HopsTo h; GetRtt])).
  { unfold r. rewrite report_delivered by exact Hst.
    unfold bind. rewrite (stats_shared_no_packet w _ Hsh Hpp). reflexivity. }
  assert (Hnew : skipn (List.length (trace s)) (trace_of r)
                 = [ReadStatus (status w (status_reads s)); HopsTo h; GetRtt]).
  { rewrite Hr. unfold read_logged. cbn [trace_of trace].
    rewrite skipn_app, skipn_all, Nat.sub_diag. reflexivity. }
  split; [exact Hr|]. rewrite Hnew. split.
  - intros text [H|[H|[H|[]]]]; discriminate H.
  - intros packet_hash. split; intros [H|[H|[H|[]]]]; discriminate H.
Qed.

Lemma shared_report_needs_packet_witness :
  status Lab.orphan 1 = DELIVERED /\
  is_connected_to_shared_instance Lab.orphan = true /\
  proof_packet Lab.orphan = None /\
  report Lab.orphan Lab.hash (mkState [] 0 1) =
  Stop (Raise "AttributeError")
    (mkState [ReadStatus DELIVERED; HopsTo Lab.hash; GetRtt] 0 2).
Proof.
  split; [reflexivity|]. split; [reflexivity|]. split; [reflexivity|].
  destruct (shared_report_needs_packet Lab.orphan Lab.hash (mkState [] 0 1)
              eq_refl eq_refl eq_refl) as [Hr _].
  exact Hr.
Defined.

(** C10.  On a stand-alone instance, the report of a delivered probe
    whose receipt has no proof packet is printed without error, and with
    no RSSI and no SNR annotation: the line ends with the hop count. *)
Theorem report_without_proof_packet (w : World) (h : bytes) (s : State) :
  status w (status_reads s) = DELIVERED ->
  is_connected_to_shared_instance w = false ->
  proof_packet w = None ->
  reception_stats_of w (read_logged w s [HopsTo h; GetRtt]) =
  Val "" (read_logged w s [HopsTo h; GetRtt]) /\
  report w h s =
  Val tt (read_logged w s
            [HopsTo h; GetRtt;
             Print (("Valid reply received from "
                     ++ prettyhexrep w (receipt_destination_hash w)
                     ++ Py.LF ++ "Round-trip time is " ++ rttstring_of w (get_rtt w)
                     ++ " over " ++ Py.str_int (hops_to w h)
                     ++ " hop" ++ ms_of (hops_to w h)) ++ Py.LF)]).
Proof.
  intros Hst Hsh Hpp.
  pose proof (stats_direct_no_packet w (read_logged w s [HopsTo h; GetRtt]) Hsh Hpp)
    as Hstats.
  split; [exact Hstats|].
  rewrite (report_text w h s _ _ Hst Hstats).
  unfold reply_text, logged, read_logged. cbn [trace path_queries status_reads].
  rewrite <- !app_assoc. cbn [app].
  rewrite !append_empty_r. reflexivity.
Qed.

Lemma report_without_proof_packet_witness :
  status Lab.bare 2 = DELIVERED /\
  is_connected_to_shared_instance Lab.bare = false /\
  proof_packet Lab.bare = None /\
  report Lab.bare Lab.hash (mkState [] 0 2) =
  Val tt (mkState [ReadStatus DELIVERED; HopsTo Lab.hash; GetRtt;
                   Print (("Valid reply received from <0001>" ++ Py.LF
                           ++ "Round-trip time is 2.5 seconds over 0 hops") ++ Py.LF)]
                  0 3).
Proof.
  split; [reflexivity|]. split; [reflexivity|]. split; [reflexivity|].
  destruct (report_without_proof_packet Lab.bare Lab.hash (mkState [] 0 2)
              eq_refl eq_refl eq_refl) as [_ Hrep].
  rewrite Hrep. reflexivity.
Defined.

(** ** A destination with white space *)

(** C2.  The destination [Lab.spaced_hex] has the required 32
    characters, eleven pairs of digits and ten spaces.  The spaces are
    not hexadecimal digits, yet the destination is not refused:
    [bytes.fromhex] skips them, the hash has 11 bytes instead of 16, and
    the run goes on to initialise the transport, request a path and send
    a probe. *)
Theorem spaced_destination_accepted :
  let r := run Lab.remote 5 None Lab.spaced_hex None (Some "app.aspect") 0 in
  Py.len Lab.spaced_hex = dest_len Lab.remote /\
  contains (fun c => negb (Py.ishex c)) Lab.spaced_hex = true /\
  destination_hash_of Lab.remote Lab.spaced_hex = inr Lab.spaced_hash /\
  List.length Lab.spaced_hash = 11%nat /\
  firstn 3 (trace_of r) =
  [ReticulumInit None 2; HasPath Lab.spaced_hash false; RequestPath Lab.spaced_hash] /\
  count is_send (trace_of r) = 1%nat /\
  (forall msg, r <> rejected msg).
Proof.
  cbv zeta. repeat split; try reflexivity.
  intros msg H. vm_compute in H. discriminate H.
Qed.

(** C9.  On the same destination, which is not 32 hexadecimal
    characters, the run prints neither of the two messages and does not
    end in [exit()]: it returns from [program_setup] after a probe that
    timed out. *)
Theorem spaced_destination_not_reported :
  let r := run Lab.remote 5 None Lab.spaced_hex None (Some "app.aspect") 0 in
  contains (fun c => negb (Py.ishex c)) Lab.spaced_hex = true /\
  hd_error (trace_of r) = Some (ReticulumInit None 2) /\
  ~ In (Print (length_message Lab.remote ++ Py.LF)) (trace_of r) /\
  ~ In (Print (content_message ++ Py.LF)) (trace_of r) /\
  (exists s, r = Val tt s /\ last (trace s) Flush = Print ("Probe timed out" ++ Py.LF)).
Proof.
  cbv zeta. split; [reflexivity|]. split; [reflexivity|].
  split; [|split].
  - vm_compute. intros H.
    repeat (destruct H as [H|H]; [discriminate H|]). exact H.
  - vm_compute. intros H.
    repeat (destruct H as [H|H]; [discriminate H|]). exact H.
  - vm_compute. eexists. split; reflexivity.
Qed.

(** * Further properties *)

(** ** The accepted destinations *)

Lemma hex_not_space (c : ascii) : Py.ishex c = true -> Py.isspace c = false.
Proof. destruct c as [[] [] [] [] [] [] [] []]; cbn; congruence. Qed.

Lemma fromhex_length_aux :
  forall (n : nat) (s : string) (bs : bytes),
    (String.length s <= n)%nat ->
    Py.fromhex s = Some bs ->
    (2 * List.length bs + spaces s = String.length s)%nat.
Proof.
  induction n as [|n IH]; intros s bs Hlen Hs.
  - destruct s; [|cbn in Hlen; lia]. injection Hs as <-. reflexivity.
  - destruct s as [|c rest]; [injection Hs as <-; reflexivity|].
    cbn [String.length] in Hlen. cbn [Py.fromhex] in Hs. cbn [spaces String.length].
    destruct (Py.isspace c) eqn:Esp.
    + specialize (IH rest bs ltac:(lia) Hs). lia.
    + destruct (Py.hexval c) as [hi|] eqn:Ehi; [|discriminate].
      destruct rest as [|d rest']; [discriminate|].
      destruct (Py.hexval d) as [lo|] eqn:Elo; [|discriminate].
      destruct (Py.fromhex rest') as [bs'|] eqn:Erest; [|discriminate].
      injection Hs as <-.
      cbn [String.length] in Hlen.
      specialize (IH rest' bs' ltac:(lia) Erest).
      assert (Hd : Py.isspace d = false).
      { apply hex_not_space. unfold Py.ishex. rewrite Elo. reflexivity. }
      cbn [spaces String.length List.length]. rewrite Hd. lia.
Qed.

(** Every byte of the result of [bytes.fromhex] takes two characters of
    the string, and the white space takes the rest. *)
Lemma fromhex_length (s : string) (bs : bytes) :
  Py.fromhex s = Some bs ->
  (2 * List.length bs + spaces s = String.length s)%nat.
Proof. apply (fromhex_length_aux (String.length s)). lia. Qed.

Lemma destination_accepted_inv (w : World) (hex : string) (h : bytes) :
  destination_hash_of w hex = inr h ->
  Py.len hex = dest_len w /\ Py.fromhex hex = Some h.
Proof.
  unfold destination_hash_of. fold (dest_len w).
  destruct (Z.eqb_spec (Py.len hex) (dest_len w)) as [E|E]; cbn [negb];
    [|discriminate].
  destruct (Py.fromhex hex) as [bs|]; [|discriminate].
  intros [= <-]. split; [exact E | reflexivity].
Qed.

(** The bytes and the white space of an accepted destination. *)
Lemma accepted_bytes_and_spaces (w : World) (hex : string) (h : bytes) :
  destination_hash_of w hex = inr h ->
  2 * Z.of_nat (List.length h) + Z.of_nat (spaces hex)
  = 2 * (TRUNCATED_HASHLENGTH w / 8).
Proof.
  intros Hacc. destruct (destination_accepted_inv w hex h Hacc) as [Hlen Hfrom].
  pose proof (fromhex_length hex h Hfrom) as Hbytes.
  unfold Py.len, dest_len in Hlen. lia.
Qed.

(** X1.  An accepted destination hash never has more bytes than the
    truncated hash length; it has exactly that many when the destination
    holds no white space, and fewer when it holds some: each byte takes
    two characters of the string. *)
Theorem accepted_hash_length (w : World) (hex : string) (h : bytes) :
  destination_hash_of w hex = inr h ->
  2 * Z.of_nat (List.length h) + Z.of_nat (spaces hex) = dest_len w /\
  Z.of_nat (List.length h) <= TRUNCATED_HASHLENGTH w / 8 /\
  (spaces hex = 0%nat <-> Z.of_nat (List.length h) = TRUNCATED_HASHLENGTH w / 8).
Proof.
  intros Hacc. pose proof (accepted_bytes_and_spaces w hex h Hacc) as Hsum.
  assert (Heven : dest_len w = 2 * (TRUNCATED_HASHLENGTH w / 8)).
  { unfold dest_len. lia. }
  repeat split; try lia.
Qed.

Lemma accepted_hash_length_witness :
  destination_hash_of Lab.plain Lab.spaced_hex = inr Lab.spaced_hash /\
  2 * Z.of_nat (List.length Lab.spaced_hash) + Z.of_nat (spaces Lab.spaced_hex) = 32.
Proof.
  split; [reflexivity|].
  destruct (accepted_hash_length Lab.plain Lab.spaced_hex Lab.spaced_hash eq_refl)
    as [Hsum _].
  exact Hsum.
Defined.

Lemma fromhex_hex_only_aux :
  forall (n : nat) (s : string),
    (String.length s <= n)%nat ->
    hex_only s = true ->
    Nat.even (String.length s) = true ->
    exists bs, Py.fromhex s = Some bs.
Proof.
  induction n as [|n IH]; intros s Hlen Hhex Heven.
  - destruct s; [|cbn in Hlen; lia]. exists []. reflexivity.
  - destruct s as [|c [|d rest]].
    + exists []. reflexivity.
    + discriminate Heven.
    + unfold hex_only in Hhex. cbn [contains] in Hhex.
      rewrite !negb_orb, !negb_involutive in Hhex.
      apply andb_prop in Hhex as [Hc Hrest].
      apply andb_prop in Hrest as [Hd Hrest].
      cbn [String.length] in Hlen, Heven.
      destruct (IH rest ltac:(lia) Hrest Heven) as [bs Hbs].
      cbn [Py.fromhex]. rewrite (hex_not_space c Hc).
      unfold Py.ishex in Hc, Hd.
      destruct (Py.hexval c) as [hi|]; [|discriminate].
      destruct (Py.hexval d) as [lo|]; [|discriminate].
      rewrite Hbs. eexists. reflexivity.
Qed.

Lemma spaces_hex_only (s : string) : hex_only s = true -> spaces s = 0%nat.
Proof.
  unfold hex_only. induction s as [|c s IH]; [reflexivity|].
  cbn [contains spaces]. rewrite negb_orb, negb_involutive.
  intros H. apply andb_prop in H as [Hc Hs].
  rewrite (hex_not_space c Hc), (IH Hs). reflexivity.
Qed.

(** X2.  A destination of the required number of characters, all of them
    hexadecimal digits, is always accepted, and its hash has the
    truncated hash length. *)
Theorem hex_digits_accepted (w : World) (hex : string) :
  Py.len hex = dest_len w ->
  hex_only hex = true ->
  exists h,
    destination_hash_of w hex = inr h /\
    Z.of_nat (List.length h) = TRUNCATED_HASHLENGTH w / 8.
Proof.
  intros Hlen Hhex.
  assert (Heven : Nat.even (String.length hex) = true).
  { apply Nat.even_spec. unfold Py.len, dest_len in Hlen.
    exists (Z.to_nat (TRUNCATED_HASHLENGTH w / 8)). lia. }
  destruct (fromhex_hex_only_aux (String.length hex) hex ltac:(lia) Hhex Heven)
    as [h Hh].
  assert (Hacc : destination_hash_of w hex = inr h).
  { unfold destination_hash_of. fold (dest_len w).
    rewrite Hlen, Z.eqb_refl. cbn [negb]. rewrite Hh. reflexivity. }
  exists h. split; [exact Hacc|].
  pose proof (accepted_bytes_and_spaces w hex h Hacc) as Hsum.
  rewrite (spaces_hex_only hex Hhex) in Hsum. lia.
Qed.

Lemma hex_digits_accepted_witness :
  Py.len Lab.hex = dest_len Lab.plain /\
  hex_only Lab.hex = true /\
  exists h, destination_hash_of Lab.plain Lab.hex = inr h /\ Z.of_nat (List.length h) = 16.
Proof.
  split; [reflexivity|]. split; [reflexivity|].
  exact (hex_digits_accepted Lab.plain Lab.hex eq_refl eq_refl).
Defined.

(** ** The refused destinations *)

(** X3.  With a well-formed name, a destination of the wrong length is
    refused with the message of line 51, and one of the right length is
    refused with the message of line 55 when it holds a character that
    is neither a hexadecimal digit nor white space, or an odd number of
    characters that are not white space.  A refusal is that message and
    [exit()]: exit status 0, and the transport is not initialised. *)
Theorem malformed_destination_refused (w : World) (fuel : nat)
    (configdir : option string) (hex : string) (size : option Z) (name : string)
    (verbosity : Z) (app_name : string) (aspects : list string) :
  app_and_aspects_from_name w name = inr (app_name, aspects) ->
  let r := run w fuel configdir hex size (Some name) verbosity in
  (Py.len hex <> dest_len w ->
   r = Stop (Exit None) (mkState [Print (length_message w ++ Py.LF)] 0 0)) /\
  (Py.len hex = dest_len w ->
   contains foreign hex = true \/ Nat.odd (String.length hex - spaces hex) = true ->
   r = Stop (Exit None) (mkState [Print (content_message ++ Py.LF)] 0 0)) /\
  (forall msg, destination_hash_of w hex = inl msg ->
   r = Stop (Exit None) (mkState [Print (msg ++ Py.LF)] 0 0) /\
   exit_status r = Some 0 /\ count is_init (trace_of r) = 0%nat).
Proof.
  intros Hname r.
  assert (Hrefused : forall msg, destination_hash_of w hex = inl msg ->
            r = Stop (Exit None) (mkState [Print (msg ++ Py.LF)] 0 0)).
  { intros msg E. unfold r.
    apply (destination_refused w fuel configdir hex size name verbosity
             app_name aspects msg Hname E). }
  split; [|split].
  - intros Hlen. apply Hrefused, wrong_length_rejected. exact Hlen.
  - intros Hlen Hbad. apply Hrefused.
    destruct Hbad as [Hforeign | Hodd].
    + apply foreign_content_rejected; assumption.
    + unfold destination_hash_of. fold (dest_len w).
      rewrite Hlen, Z.eqb_refl. cbn [negb].
      destruct (Py.fromhex hex) as [bs|] eqn:E; [|reflexivity].
      pose proof (fromhex_length hex bs E) as Hbytes.
      replace (String.length hex - spaces hex)%nat with (2 * List.length bs)%nat in Hodd
        by lia.
      rewrite Nat.odd_mul in Hodd. discriminate Hodd.
  - intros msg E. rewrite (Hrefused msg E). repeat split.
Qed.

Lemma malformed_destination_refused_witness :
  Py.len "abc" <> dest_len Lab.plain /\
  run Lab.plain 3 None "abc" None (Some "app.aspect") 0 =
  Stop (Exit None) (mkState [Print (length_message Lab.plain ++ Py.LF)] 0 0).
Proof.
  assert (Hlen : Py.len "abc" <> dest_len Lab.plain) by discriminate.
  split; [exact Hlen|].
  destruct (malformed_destination_refused Lab.plain 3 None "abc" None "app.aspect" 0
              "app" ["aspect"] eq_refl) as [Hwrong _].
  exact (Hwrong Hlen).
Defined.

(** X4.  The name is checked before the destination: a missing name, or
    one that the name parser refuses, ends the run with its own message
    and [exit()], with exit status 0, whatever the destination is,
    malformed or not. *)
Theorem name_checked_first (w : World) (fuel : nat) (configdir : option string)
    (hex : string) (size : option Z) (verbosity : Z) :
  run w fuel configdir hex size None verbosity =
  Stop (Exit None)
    (mkState [Print ("The full destination name including application name aspects must be specified for the destination" ++ Py.LF)] 0 0) /\
  (forall name msg,
     app_and_aspects_from_name w name = inl msg ->
     let r := run w fuel configdir hex size (Some name) verbosity in
     r = Stop (Exit None) (mkState [Print (msg ++ Py.LF)] 0 0) /\
     exit_status r = Some 0).
Proof.
  split; [reflexivity|].
  intros name msg Hname r.
  assert (Hr : r = Stop (Exit None) (mkState [Print (msg ++ Py.LF)] 0 0)).
  { unfold r. apply (name_refused w fuel configdir hex size name verbosity msg Hname). }
  rewrite Hr. split; reflexivity.
Qed.

Lemma name_checked_first_witness :
  app_and_aspects_from_name Lab.plain "app" = inl "Invalid destination name" /\
  run Lab.plain 3 None "xyz" None (Some "app") 0 =
  Stop (Exit None) (mkState [Print ("Invalid destination name" ++ Py.LF)] 0 0).
Proof.
  split; [reflexivity|].
  destruct (name_checked_first Lab.plain 3 None "xyz" None 0) as [_ H].
  destruct (H "app" "Invalid destination name" eq_refl) as [Hr _].
  exact Hr.
Defined.

(** ** The case of the digits *)

Lemma lower_ascii_space (c : ascii) : Py.isspace (lower_ascii c) = Py.isspace c.
Proof. destruct c as [[] [] [] [] [] [] [] []]; reflexivity. Qed.

Lemma lower_ascii_hexval (c : ascii) : Py.hexval (lower_ascii c) = Py.hexval c.
Proof. destruct c as [[] [] [] [] [] [] [] []]; reflexivity. Qed.

Lemma lower_length (s : string) : String.length (lower s) = String.length s.
Proof. induction s as [|c s IH]; cbn; [reflexivity | now rewrite IH]. Qed.

Lemma fromhex_lower_aux :
  forall (n : nat) (s : string),
    (String.length s <= n)%nat -> Py.fromhex (lower s) = Py.fromhex s.
Proof.
  induction n as [|n IH]; intros s Hlen.
  - destruct s; [reflexivity | cbn in Hlen; lia].
  - destruct s as [|c rest]; [reflexivity|].
    cbn [String.length] in Hlen. cbn [lower Py.fromhex].
    rewrite lower_ascii_space, lower_ascii_hexval.
    destruct (Py.isspace c); [apply IH; lia|].
    destruct (Py.hexval c) as [hi|]; [|reflexivity].
    destruct rest as [|d rest']; [reflexivity|].
    cbn [lower]. rewrite lower_ascii_hexval.
    destruct (Py.hexval d) as [lo|]; [|reflexivity].
    rewrite IH by (cbn [String.length] in Hlen; lia). reflexivity.
Qed.

(** X5.  The destination is read without regard to the case of its
    digits: a destination and its lower-case form give the same hash or
    the same refusal, and the whole run is the same. *)
Theorem destination_case_insensitive (w : World) (fuel : nat)
    (configdir : option string) (hex : string) (size : option Z)
    (full_name : option string) (verbosity : Z) :
  destination_hash_of w (lower hex) = destination_hash_of w hex /\
  run w fuel configdir (lower hex) size full_name verbosity =
  run w fuel configdir hex size full_name verbosity.
Proof.
  assert (H : destination_hash_of w (lower hex) = destination_hash_of w hex).
  { unfold destination_hash_of, Py.len.
    rewrite lower_length, (fromhex_lower_aux (String.length hex) hex) by lia.
    reflexivity. }
  split; [exact H|].
  unfold run, program_setup. rewrite H. reflexivity.
Qed.

(** ** What a run adds to the trace, and how it stops *)

(** For a kind [p] of events given by cases, the steps that do not add
    an event of that kind. *)
Ltac adds_auto :=
  unfold after_discovery, after_wait, report, reception_stats_of, more_of,
    print, print_end;
  repeat first
    [ apply adds_ret | apply adds_exit | apply adds_raise
    | apply adds_emit; reflexivity
    | apply adds_read_status; intros; reflexivity
    | apply adds_wait_path; intros; reflexivity
    | apply adds_wait_receipt; intros; reflexivity
    | apply adds_bind; [|intros ?]
    | match goal with |- adds _ (if ?c then _ else _) => destruct c end
    | match goal with |- adds _ (match ?c with _ => _ end) => destruct c end ].

Lemma adds_le_of_adds {A} (p : Event -> bool) (n : nat) (m : M A) :
  adds p m -> adds_le p n m.
Proof.
  intros Hm s. destruct (Hm s) as [d [E C]]. exists d. split; [exact E | lia].
Qed.

Lemma adds_le_emit (p : Event -> bool) (e : Event) : adds_le p 1 (emit e).
Proof.
  intros s. exists [e]. split; [reflexivity|].
  unfold count. cbn. destruct (p e); cbn; lia.
Qed.

Lemma adds_le_bind_l {A B} (p : Event -> bool) (n : nat) (m : M A) (k : A -> M B) :
  adds p m -> (forall a, adds_le p n (k a)) -> adds_le p n (bind m k).
Proof.
  intros Hm Hk s. unfold bind.
  destruct (Hm s) as [d1 [E1 C1]].
  destruct (m s) as [a s1 | h s1]; cbn [state_of] in E1.
  - destruct (Hk a s1) as [d2 [E2 C2]].
    exists (d1 ++ d2)%list. rewrite E2, E1, app_assoc. split; [reflexivity|].
    rewrite count_app, C1. exact C2.
  - exists d1. cbn [state_of]. split; [exact E1 | lia].
Qed.

Lemma adds_le_bind_r {A B} (p : Event -> bool) (n : nat) (m : M A) (k : A -> M B) :
  adds_le p n m -> (forall a, adds p (k a)) -> adds_le p n (bind m k).
Proof.
  intros Hm Hk s. unfold bind.
  destruct (Hm s) as [d1 [E1 C1]].
  destruct (m s) as [a s1 | h s1]; cbn [state_of] in E1.
  - destruct (Hk a s1) as [d2 [E2 C2]].
    exists (d1 ++ d2)%list. rewrite E2, E1, app_assoc. split; [reflexivity|].
    rewrite count_app, C2. lia.
  - exists d1. cbn [state_of]. split; assumption.
Qed.

(** Whatever follows the path request sends at most one probe. *)
Lemma after_discovery_sends_once (w : World) (fuel : nat) (h : bytes) (size : Z)
    (more_output : bool) :
  adds_le is_send 1 (after_discovery w fuel h size more_output).
Proof.
  unfold after_discovery.
  apply adds_le_bind_l; [adds_auto|intros _].
  apply adds_le_bind_l; [adds_auto|intros _].
  apply adds_le_bind_l; [adds_auto|intros _].
  apply adds_le_bind_l; [adds_auto|intros _].
  apply adds_le_bind_l; [adds_auto|intros _].
  destruct (pack w size).
  - apply adds_le_of_adds. adds_auto.
  - apply adds_le_bind_r; [apply adds_le_emit|intros _]. adds_auto.
Qed.

(** Whatever follows the path request neither initialises the transport
    nor requests a path. *)
Lemma after_discovery_no_start (w : World) (fuel : nat) (h : bytes) (size : Z)
    (more_output : bool) :
  adds is_start (after_discovery w fuel h size more_output).
Proof. adds_auto. Qed.

Lemma count_le_start (p : Event -> bool) (tr : list Event) :
  (forall e, p e = true -> is_start e = true) ->
  (count p tr <= count is_start tr)%nat.
Proof.
  intros Hp. unfold count. induction tr as [|e tr IH]; [cbn; lia|].
  cbn [filter]. destruct (p e) eqn:E.
  - rewrite (Hp e E). cbn [List.length]. lia.
  - destruct (is_start e); cbn [List.length]; lia.
Qed.

Section Stops.

Context {A : Type}.
Variable P : Halt -> Prop.

Lemma stops_ret (a : A) : stops P (ret a).
Proof. intros s h s' H. discriminate H. Qed.

Lemma stops_emit (e : Event) : stops P (emit e).
Proof. intros s h s' H. discriminate H. Qed.

Lemma stops_has_path_call (w : World) (hash : bytes) : stops P (has_path_call w hash).
Proof. intros s h s' H. discriminate H. Qed.

Lemma stops_read_status (w : World) : stops P (read_status w).
Proof. intros s h s' H. discriminate H. Qed.

Lemma stops_halt (h0 : Halt) : P h0 -> stops P (fun s => @Stop A h0 s).
Proof. intros Hh s h s' H. injection H as <- _. exact Hh. Qed.

End Stops.

Lemma stops_bind {A B} (P : Halt -> Prop) (m : M A) (k : A -> M B) :
  stops P m -> (forall a, stops P (k a)) -> stops P (bind m k).
Proof.
  intros Hm Hk s h s' H. unfold bind in H.
  destruct (m s) as [a s1 | h1 s1] eqn:E.
  - apply (Hk a s1 h s' H).
  - injection H as <- _. apply (Hm s h1 s1 E).
Qed.

Lemma stops_tick (P : Halt -> Prop) (i : nat) : stops P (tick i).
Proof.
  unfold tick, print_end.
  repeat (apply stops_bind; [apply stops_emit | intros _]). apply stops_emit.
Qed.

(** A polling loop stops short of returning only for want of fuel. *)
Lemma stops_wait_path (P : Halt -> Prop) (w : World) (hash : bytes) (fuel : nat) :
  P OutOfFuel -> forall i, stops P (wait_path w hash fuel i).
Proof.
  intros HP. induction fuel as [|fuel IH]; intros i; cbn [wait_path].
  - apply (stops_halt P OutOfFuel HP).
  - apply stops_bind; [apply stops_has_path_call | intros known].
    destruct known; [apply stops_ret|].
    apply stops_bind; [apply stops_tick | intros _]. apply IH.
Qed.

Lemma stops_wait_receipt (P : Halt -> Prop) (w : World) (fuel : nat) :
  P OutOfFuel -> forall i, stops P (wait_receipt w fuel i).
Proof.
  intros HP. induction fuel as [|fuel IH]; intros i; cbn [wait_receipt].
  - apply (stops_halt P OutOfFuel HP).
  - apply stops_bind; [apply stops_read_status | intros st].
    destruct (Status_eqb st SENT); [|apply stops_ret].
    apply stops_bind; [apply stops_tick | intros _]. apply IH.
Qed.

(** Once the destination is accepted the program stops short of
    returning in the ways of [probe_stop] only. *)
Lemma stops_after_discovery (w : World) (fuel : nat) (h : bytes) (size : Z)
    (more_output : bool) :
  stops (probe_stop w size) (after_discovery w fuel h size more_output).
Proof.
  assert (Hfuel : probe_stop w size OutOfFuel) by (left; reflexivity).
  unfold after_discovery.
  apply stops_bind; [apply stops_wait_path; exact Hfuel | intros _].
  apply stops_bind; [apply stops_emit | intros _].
  apply stops_bind; [apply stops_emit | intros _].
  apply stops_bind.
  { destruct (size <? 0) eqn:E; [|apply stops_ret].
    apply (stops_halt (probe_stop w size) (Raise "ValueError")).
    right. right. left. split; [reflexivity | apply Z.ltb_lt; exact E]. }
  intros _.
  apply stops_bind; [apply stops_emit | intros _].
  destruct (pack w size) as [n|n] eqn:Epack.
  - apply stops_bind; [apply stops_emit | intros _].
    apply (stops_halt (probe_stop w size) (Exit (Some 1))).
    right. left. split; [reflexivity|].
    unfold pack in Epack.
    destruct (MTU w <? raw_len w size) eqn:E; [apply Z.ltb_lt; exact E | discriminate].
  - apply stops_bind; [apply stops_emit | intros _].
    apply stops_bind.
    { unfold more_of. destruct more_output; [|apply stops_ret].
      apply stops_bind; [apply stops_emit | intros _].
      apply stops_bind; [apply stops_emit | intros _].
      apply stops_bind; [|intros ?; apply stops_ret].
      destruct (negb _); [|apply stops_ret].
      apply stops_bind; [apply stops_emit | intros _]. apply stops_ret. }
    intros more.
    apply stops_bind; [apply stops_emit | intros _].
    apply stops_bind; [apply stops_wait_receipt; exact Hfuel | intros _].
    apply stops_bind; [apply stops_emit | intros _].
    apply stops_bind; [apply stops_emit | intros _].
    unfold report.
    apply stops_bind; [apply stops_read_status | intros st].
    destruct (Status_eqb st DELIVERED); [|apply stops_emit].
    apply stops_bind; [apply stops_emit | intros _].
    apply stops_bind; [apply stops_emit | intros _].
    apply stops_bind; [|intros ?; apply stops_emit].
    unfold reception_stats_of.
    destruct (is_connected_to_shared_instance w) eqn:Esh;
      destruct (proof_packet w) as [p|] eqn:Epp; try apply stops_ret.
    + apply stops_bind; [apply stops_emit | intros _].
      apply stops_bind; [apply stops_emit | intros _]. apply stops_ret.
    + apply (stops_halt (probe_stop w size) (Raise "AttributeError")).
      right. right. right. repeat split; assumption.
Qed.

(** ** One initialisation, one request, one probe *)

(** X6.  With a well-formed name and destination the transport is
    initialised first, before anything else is done, with the log level
    [verbosity + 2], and it is initialised exactly once in the run,
    however the run ends. *)
Theorem transport_initialised_once (w : World) (fuel : nat)
    (configdir : option string) (hex : string) (size : option Z) (name : string)
    (verbosity : Z) (app_name : string) (aspects : list string) (h : bytes) :
  app_and_aspects_from_name w name = inr (app_name, aspects) ->
  destination_hash_of w hex = inr h ->
  let r := run w fuel configdir hex size (Some name) verbosity in
  hd_error (trace_of r) = Some (ReticulumInit configdir (verbosity + 2)) /\
  count is_init (trace_of r) = 1%nat.
Proof.
  intros Hname Hhash r. unfold r.
  rewrite (program_stages w fuel configdir hex size name verbosity app_name aspects h)
    by assumption.
  assert (Hq : adds is_init (after_discovery w fuel h (size_of size) (0 <? verbosity)))
    by adds_auto.
  destruct (Hq (mkState (ReticulumInit configdir (3 + (verbosity - 1))
                         :: discovery_events w h) 1 0)) as [d [Ed Cd]].
  rewrite trace_of_state, Ed. cbn [trace].
  replace (3 + (verbosity - 1)) with (verbosity + 2) by lia.
  split; [reflexivity|].
  change (ReticulumInit configdir (verbosity + 2) :: discovery_events w h)
    with ([ReticulumInit configdir (verbosity + 2)] ++ discovery_events w h)%list.
  rewrite !count_app, Cd.
  unfold discovery_events. destruct (has_path w h 0); reflexivity.
Qed.

Lemma transport_initialised_once_witness :
  count is_init (trace_of (run Lab.far 9 None Lab.hex None (Some "app.aspect") 3)) = 1%nat /\
  hd_error (trace_of (run Lab.far 9 None Lab.hex None (Some "app.aspect") 3))
  = Some (ReticulumInit None 5).
Proof.
  destruct (transport_initialised_once Lab.far 9 None Lab.hex None "app.aspect" 3
              "app" ["aspect"] Lab.hash eq_refl eq_refl) as [Hfirst Hcount].
  split; [exact Hcount | exact Hfirst].
Defined.

(** The trace of a run that is refused at validation holds one print. *)
Lemma run_cases (w : World) (fuel : nat) (configdir : option string)
    (hex : string) (size : option Z) (full_name : option string) (verbosity : Z) :
  (exists msg, run w fuel configdir hex size full_name verbosity = rejected msg) \/
  (exists name app_name aspects h,
     full_name = Some name /\
     app_and_aspects_from_name w name = inr (app_name, aspects) /\
     destination_hash_of w hex = inr h /\
     run w fuel configdir hex size full_name verbosity =
     after_discovery w fuel h (size_of size) (0 <? verbosity)
       (mkState (ReticulumInit configdir (3 + (verbosity - 1)) :: discovery_events w h)
                1 0)).
Proof.
  destruct full_name as [name|]; [|left; eexists; reflexivity].
  destruct (app_and_aspects_from_name w name) as [msg | [app_name aspects]] eqn:Hname.
  - left. exists msg. apply name_refused. exact Hname.
  - destruct (destination_hash_of w hex) as [msg | h] eqn:Hhash.
    + left. exists msg.
      apply (destination_refused w fuel configdir hex size name verbosity
               app_name aspects msg Hname Hhash).
    + right. exists name, app_name, aspects, h. repeat split; try assumption.
      apply (program_stages w fuel configdir hex size name verbosity app_name aspects h);
        assumption.
Qed.

(** X7.  No run, whatever its arguments, the world and the fuel, sends
    more than one probe, requests a path more than once, or initialises
    the transport more than once. *)
Theorem at_most_one_probe (w : World) (fuel : nat) (configdir : option string)
    (hex : string) (size : option Z) (full_name : option string) (verbosity : Z) :
  let r := run w fuel configdir hex size full_name verbosity in
  (count is_send (trace_of r) <= 1)%nat /\
  (count is_request (trace_of r) <= 1)%nat /\
  (count is_init (trace_of r) <= 1)%nat.
Proof.
  intros r. unfold r.
  destruct (run_cases w fuel configdir hex size full_name verbosity)
    as [[msg Hr] | [name [app_name [aspects [h [_ [_ [_ Hr]]]]]]]]; rewrite Hr.
  - cbn. repeat split; lia.
  - set (s0 := mkState (ReticulumInit configdir (3 + (verbosity - 1))
                        :: discovery_events w h) 1 0).
    assert (Hstart : forall p, (forall e, p e = true -> is_start e = true) ->
              p (ReticulumInit configdir (3 + (verbosity - 1))) = false ->
              (count p (discovery_events w h) <= 1)%nat ->
              (count p (trace_of (after_discovery w fuel h (size_of size)
                                    (0 <? verbosity)%Z s0)) <= 1)%nat).
    { intros p Hp Hinit Hdisc.
      destruct (after_discovery_no_start w fuel h (size_of size) (0 <? verbosity) s0)
        as [d [Ed Cd]].
      rewrite trace_of_state, Ed. unfold s0. cbn [trace].
      change (ReticulumInit configdir (3 + (verbosity - 1)) :: discovery_events w h)
        with ([ReticulumInit configdir (3 + (verbosity - 1))]
              ++ discovery_events w h)%list.
      rewrite !count_app.
      pose proof (count_le_start p d Hp) as Hd.
      unfold count at 1. cbn [filter]. rewrite Hinit. cbn [List.length]. lia. }
    split; [|split].
    + destruct (after_discovery_sends_once w fuel h (size_of size) (0 <? verbosity) s0)
        as [d [Ed Cd]].
      rewrite trace_of_state, Ed. unfold s0. cbn [trace].
      change (ReticulumInit configdir (3 + (verbosity - 1)) :: discovery_events w h)
        with ([ReticulumInit configdir (3 + (verbosity - 1))]
              ++ discovery_events w h)%list.
      rewrite !count_app, count_discovery_sends. cbn. exact Cd.
    + apply Hstart.
      * intros [] He; try discriminate He; reflexivity.
      * reflexivity.
      * rewrite count_discovery_requests. destruct (has_path w h 0); lia.
    + destruct (after_discovery_no_start w fuel h (size_of size) (0 <? verbosity) s0)
        as [d [Ed Cd]].
      rewrite trace_of_state, Ed. unfold s0. cbn [trace].
      change (ReticulumInit configdir (3 + (verbosity - 1)) :: discovery_events w h)
        with ([ReticulumInit configdir (3 + (verbosity - 1))]
              ++ discovery_events w h)%list.
      rewrite !count_app.
      pose proof (count_le_start is_init d
                    ltac:(intros [] He; try discriminate He; reflexivity)) as Hd.
      assert (Hdisc : count is_init (discovery_events w h) = 0%nat).
      { unfold discovery_events. destruct (has_path w h 0); reflexivity. }
      rewrite Hdisc. cbn. lia.
Qed.

(** ** How a run ends *)

(** X8.  [program_setup] ends in [exit] in two situations only.  It
    ends in [exit()], without a code, only at validation: the message of
    the refused name or destination is all that was printed, and nothing
    else was done.  It ends in [exit] with a code only as [exit(1)], and
    only for a probe whose packed frame exceeds the MTU. *)
Theorem exits_of_program_setup (w : World) (fuel : nat) (configdir : option string)
    (hex : string) (size : option Z) (full_name : option string) (verbosity : Z)
    (code : option Z) (s : State) :
  run w fuel configdir hex size full_name verbosity = Stop (Exit code) s ->
  (code = None /\ exists msg, s = mkState [Print (msg ++ Py.LF)] 0 0) \/
  (code = Some 1 /\ MTU w < raw_len w (size_of size)
   /\ exists h, destination_hash_of w hex = inr h).
Proof.
  intros Hrun.
  destruct (run_cases w fuel configdir hex size full_name verbosity)
    as [[msg Hr] | [name [app_name [aspects [hash [_ [_ [Hhash Hr]]]]]]]];
    rewrite Hr in Hrun.
  - unfold rejected in Hrun. injection Hrun as <- <-.
    left. split; [reflexivity|]. exists msg. reflexivity.
  - right.
    destruct (stops_after_discovery w fuel hash (size_of size) (0 <? verbosity)
                _ _ s Hrun) as [H | [[H Hraw] | [[H _] | [H _]]]];
      try discriminate H.
    injection H as ->. split; [reflexivity|]. split; [exact Hraw|].
    exists hash. exact Hhash.
Qed.

Lemma exits_of_program_setup_witness :
  exit_status (run Lab.plain 4 None Lab.hex (Some 600) (Some "app.aspect") 0) = Some 1 /\
  MTU Lab.plain < raw_len Lab.plain (size_of (Some 600)).
Proof.
  split; [reflexivity|].
  destruct (exits_of_program_setup Lab.plain 4 None Lab.hex (Some 600)
              (Some "app.aspect") 0 (Some 1)
              (state_of (run Lab.plain 4 None Lab.hex (Some 600) (Some "app.aspect") 0))
              eq_refl) as [[H _] | [_ [H _]]].
  - discriminate H.
  - exact H.
Defined.

(** X9.  A negative size that fits a C [ssize_t] (it is at least
    [-2^63]) is not refused at validation: the transport is initialised
    and the path awaited first; then [os.urandom] raises [ValueError],
    which nothing catches.  The probe is neither packed nor sent, and
    the exit status is 1. *)
Theorem negative_size_raises (w : World) (fuel : nat) (configdir : option string)
    (hex : string) (size : option Z) (name : string) (verbosity : Z)
    (app_name : string) (aspects : list string) (h : bytes) (k : nat) :
  app_and_aspects_from_name w name = inr (app_name, aspects) ->
  destination_hash_of w hex = inr h ->
  path_after w h k ->
  (k < fuel)%nat ->
  - 2 ^ 63 <= size_of size < 0 ->
  let r := run w fuel configdir hex size (Some name) verbosity in
  r = Stop (Raise "ValueError")
        (mkState
           (ReticulumInit configdir (3 + (verbosity - 1)) :: discovery_events w h
            ++ path_ticks h k 0
            ++ [HasPath h true; IdentityRecall h; Urandom (size_of size)])
           (S (S k)) 0) /\
  exit_status r = Some 1 /\
  count is_send (trace_of r) = 0%nat.
Proof.
  intros Hname Hhash [Hno Hyes] Hk [_ Hsize] r.
  assert (Hr : r = Stop (Raise "ValueError")
        (mkState
           (ReticulumInit configdir (3 + (verbosity - 1)) :: discovery_events w h
            ++ path_ticks h k 0
            ++ [HasPath h true; IdentityRecall h; Urandom (size_of size)])
           (S (S k)) 0)).
  { unfold r.
    rewrite (program_stages w fuel configdir hex size name verbosity app_name aspects h)
      by assumption.
    unfold after_discovery. unfold bind at 1.
    rewrite (wait_path_found w h k); cbn [trace path_queries status_reads];
      [| intros j Hj; apply Hno; lia | exact Hyes | exact Hk].
    unfold bind at 1. unfold emit at 1. cbn [trace path_queries status_reads].
    unfold bind at 1. unfold emit at 1. cbn [trace path_queries status_reads].
    unfold bind at 1.
    destruct (size_of size <? 0) eqn:E; [|apply Z.ltb_ge in E; lia].
    unfold raise.
    replace (1 + S k)%nat with (S (S k)) by lia.
    cbn [List.app]. rewrite <- !app_assoc. reflexivity. }
  split; [exact Hr|]. rewrite Hr. split; [reflexivity|].
  cbn [trace_of trace].
  change (ReticulumInit configdir (3 + (verbosity - 1)) :: discovery_events w h
          ++ path_ticks h k 0 ++ ?l)%list
    with ([ReticulumInit configdir (3 + (verbosity - 1))] ++ discovery_events w h
          ++ path_ticks h k 0 ++ l)%list.
  rewrite !count_app, count_discovery_sends.
  rewrite count_path_ticks by (intros; reflexivity). reflexivity.
Qed.

Lemma negative_size_raises_witness :
  path_after Lab.plain Lab.hash 0 /\
  - 2 ^ 63 <= size_of (Some (-5)) < 0 /\
  exit_status (run Lab.plain 4 None Lab.hex (Some (-5)) (Some "app.aspect") 0) = Some 1.
Proof.
  assert (Hsize : - 2 ^ 63 <= size_of (Some (-5)) < 0)
    by (split; [discriminate | reflexivity]).
  split; [exact lab_plain_path|]. split; [exact Hsize|].
  destruct (negative_size_raises Lab.plain 4 None Lab.hex (Some (-5)) "app.aspect" 0
              "app" ["aspect"] Lab.hash 0 eq_refl eq_refl lab_plain_path
              ltac:(lia) Hsize) as [_ [Hstatus _]].
  exact Hstatus.
Defined.

(** ** The whole run of a probe that is answered *)

(** The events of lines 139-140 and the text of lines 142-154, when the
    signal metrics can be looked up. *)
Lemma stats_found (w : World) (s : State) :
  is_connected_to_shared_instance w = false \/ proof_packet w <> None ->
  exists lookups stats,
    reception_stats_of w s = Val stats (logged s lookups) /\
    count is_send lookups = 0%nat.
Proof.
  intros Hok.
  destruct (is_connected_to_shared_instance w) eqn:Esh;
    destruct (proof_packet w) as [p|] eqn:Epp.
  - eexists _, _. split; [apply (stats_shared w p s Esh Epp) | reflexivity].
  - destruct Hok as [H|H]; [discriminate H | contradiction].
  - exists [], (rssi_stats w (rssi p) ++ snr_stats w (snr p)).
    rewrite (stats_direct w p s Esh Epp). unfold logged. rewrite app_nil_r.
    destruct s; split; reflexivity.
  - exists [], "". rewrite (stats_direct_no_packet w s Esh Epp).
    unfold logged. rewrite app_nil_r. destruct s; split; reflexivity.
Qed.

(** X10.  A probe that is answered: with a well-formed name and
    destination, a path found, a size within the ceiling, a receipt that
    settles as delivered, and the signal metrics within reach (a
    stand-alone instance, or a proof packet on the receipt), the run
    returns with exit status 0, its last action is the print of the
    reply, and exactly one probe was sent. *)
Theorem answered_probe (w : World) (fuel : nat) (configdir : option string)
    (hex : string) (size : option Z) (name : string) (verbosity : Z)
    (app_name : string) (aspects : list string) (h : bytes) (k n : nat) :
  app_and_aspects_from_name w name = inr (app_name, aspects) ->
  destination_hash_of w hex = inr h ->
  path_after w h k ->
  (k < fuel)%nat ->
  0 <= size_of size ->
  raw_len w (size_of size) <= MTU w ->
  settles_after w n ->
  (n < fuel)%nat ->
  status w (S n) = DELIVERED ->
  is_connected_to_shared_instance w = false \/ proof_packet w <> None ->
  let r := run w fuel configdir hex size (Some name) verbosity in
  exists lookups stats,
    r = Val tt
          (mkState
             (trace_to_sent w configdir verbosity h (size_of size) k
              ++ receipt_ticks n 0
              ++ [ReadStatus (status w n); Print ((Py.BS ++ Py.BS ++ " ") ++ Py.LF);
                  Flush; ReadStatus DELIVERED; HopsTo h; GetRtt]
              ++ lookups
              ++ [Print (reply_text w (rttstring_of w (get_rtt w)) (hops_to w h) stats
                         ++ Py.LF)])
             (S (S k)) (S (S n))) /\
    exit_status r = Some 0 /\
    count is_send (trace_of r) = 1%nat.
Proof.
  intros Hname Hhash Hpath Hk Hsize Hraw Hsettle Hn Hdel Hok r.
  pose proof (program_to_report w fuel configdir hex size name verbosity
                app_name aspects h k n Hname Hhash Hpath Hk Hsize Hraw Hsettle Hn) as Hr.
  fold r in Hr.
  match type of Hr with
  | r = report w h ?s0 =>
      destruct (stats_found w (read_logged w s0 [HopsTo h; GetRtt]) Hok)
        as [lookups [stats [Hstats Hquiet]]];
      pose proof (report_text w h s0 _ stats Hdel Hstats) as Hrep
  end.
  exists lookups, stats.
  assert (Hfinal : r = Val tt
          (mkState
             (trace_to_sent w configdir verbosity h (size_of size) k
              ++ receipt_ticks n 0
              ++ [ReadStatus (status w n); Print ((Py.BS ++ Py.BS ++ " ") ++ Py.LF);
                  Flush; ReadStatus DELIVERED; HopsTo h; GetRtt]
              ++ lookups
              ++ [Print (reply_text w (rttstring_of w (get_rtt w)) (hops_to w h) stats
                         ++ Py.LF)])
             (S (S k)) (S (S n)))).
  { rewrite Hr, Hrep. unfold logged, read_logged.
    cbn [trace path_queries status_reads]. rewrite Hdel.
    rewrite <- !app_assoc. cbn [List.app]. reflexivity. }
  split; [exact Hfinal|]. rewrite Hfinal. split; [reflexivity|].
  cbn [trace_of trace]. unfold trace_to_sent.
  change (ReticulumInit configdir (3 + (verbosity - 1)) :: discovery_events w h ++ ?l)%list
    with ([ReticulumInit configdir (3 + (verbosity - 1))]
          ++ discovery_events w h ++ l)%list.
  rewrite !count_app, count_discovery_sends, Hquiet.
  rewrite count_path_ticks by (intros; reflexivity).
  rewrite count_receipt_ticks by (intros; reflexivity).
  assert (Hmore : count is_send (more_events w h (0 <? verbosity)) = 0%nat).
  { unfold more_events. destruct (0 <? verbosity); [|reflexivity].
    destruct (get_next_hop_if_name w h =? "None")%string; reflexivity. }
  rewrite Hmore. reflexivity.
Qed.

Lemma answered_probe_witness :
  path_after Lab.plain Lab.hash 0 /\
  settles_after Lab.plain 2 /\
  status Lab.plain 3 = DELIVERED /\
  exit_status (run Lab.plain 5 None Lab.hex None (Some "app.aspect") 0) = Some 0 /\
  count is_send (trace_of (run Lab.plain 5 None Lab.hex None (Some "app.aspect") 0))
  = 1%nat.
Proof.
  assert (Hsettle : settles_after Lab.plain 2).
  { split; [|discriminate].
    intros j Hj. assert (j = 0 \/ j = 1)%nat as [-> | ->] by lia; reflexivity. }
  split; [exact lab_plain_path|]. split; [exact Hsettle|]. split; [reflexivity|].
  destruct (answered_probe Lab.plain 5 None Lab.hex None "app.aspect" 0
              "app" ["aspect"] Lab.hash 0 2 eq_refl eq_refl lab_plain_path
              ltac:(lia) ltac:(discriminate) ltac:(discriminate) Hsettle ltac:(lia)
              eq_refl (or_introl eq_refl)) as [lookups [stats [_ [Hstatus Hsend]]]].
  split; assumption.
Defined.

(** X11.  On a shared instance, a receipt that settles as delivered but
    carries no proof packet makes line 139 raise [AttributeError], which
    nothing catches: the run ends after the round-trip time is taken,
    the reply is not printed, and the exit status is 1. *)
Theorem delivered_without_packet_on_shared (w : World) (fuel : nat)
    (configdir : option string) (hex : string) (size : option Z) (name : string)
    (verbosity : Z) (app_name : string) (aspects : list string) (h : bytes)
    (k n : nat) :
  app_and_aspects_from_name w name = inr (app_name, aspects) ->
  destination_hash_of w hex = inr h ->
  path_after w h k ->
  (k < fuel)%nat ->
  0 <= size_of size ->
  raw_len w (size_of size) <= MTU w ->
  settles_after w n ->
  (n < fuel)%nat ->
  status w (S n) = DELIVERED ->
  is_connected_to_shared_instance w = true ->
  proof_packet w = None ->
  let r := run w fuel configdir hex size (Some name) verbosity in
  r = Stop (Raise "AttributeError")
        (mkState
           (trace_to_sent w configdir verbosity h (size_of size) k
            ++ receipt_ticks n 0
            ++ [ReadStatus (status w n); Print ((Py.BS ++ Py.BS ++ " ") ++ Py.LF);
                Flush; ReadStatus DELIVERED; HopsTo h; GetRtt])
           (S (S k)) (S (S n))) /\
  exit_status r = Some 1.
Proof.
  intros Hname Hhash Hpath Hk Hsize Hraw Hsettle Hn Hdel Hsh Hpp r.
  pose proof (program_to_report w fuel configdir hex size name verbosity
                app_name aspects h k n Hname Hhash Hpath Hk Hsize Hraw Hsettle Hn) as Hr.
  fold r in Hr.
  assert (Hfinal : r = Stop (Raise "AttributeError")
        (mkState
           (trace_to_sent w configdir verbosity h (size_of size) k
            ++ receipt_ticks n 0
            ++ [ReadStatus (status w n); Print ((Py.BS ++ Py.BS ++ " ") ++ Py.LF);
                Flush; ReadStatus DELIVERED; HopsTo h; GetRtt])
           (S (S k)) (S (S n)))).
  { rewrite Hr, report_delivered by exact Hdel.
    unfold bind. rewrite (stats_shared_no_packet w _ Hsh Hpp).
    unfold read_logged. cbn [trace path_queries status_reads]. rewrite Hdel.
    rewrite <- !app_assoc. cbn [List.app]. reflexivity. }
  split; [exact Hfinal|]. rewrite Hfinal. reflexivity.
Qed.

Lemma lab_orphan_path : path_after Lab.orphan Lab.hash 0.
Proof. split; [intros j Hj; lia | reflexivity]. Qed.

Lemma lab_orphan_settles : settles_after Lab.orphan 1.
Proof.
  split; [|discriminate].
  intros j Hj. assert (j = 0%nat) as -> by lia. reflexivity.
Qed.

Lemma delivered_without_packet_on_shared_witness :
  path_after Lab.orphan Lab.hash 0 /\
  settles_after Lab.orphan 1 /\
  status Lab.orphan 2 = DELIVERED /\
  is_connected_to_shared_instance Lab.orphan = true /\
  proof_packet Lab.orphan = None /\
  exit_status (run Lab.orphan 5 None Lab.hex None (Some "app.aspect") 0) = Some 1.
Proof.
  split; [exact lab_orphan_path|]. split; [exact lab_orphan_settles|].
  split; [reflexivity|]. split; [reflexivity|]. split; [reflexivity|].
  destruct (delivered_without_packet_on_shared Lab.orphan 5 None Lab.hex None
              "app.aspect" 0 "app" ["aspect"] Lab.hash 0 1 eq_refl eq_refl
              lab_orphan_path ltac:(lia) ltac:(discriminate) ltac:(discriminate)
              lab_orphan_settles ltac:(lia) eq_refl eq_refl eq_refl) as [_ Hstatus].
  exact Hstatus.
Defined.

(** ** The progress indicator *)

Lemma flat_map_shift {A} (f : nat -> list A) (k : nat) :
  flat_map f (seq 1 k) = flat_map (fun j => f (S j)) (seq 0 k).
Proof.
  rewrite <- seq_shift. induction (seq 0 k) as [|j l IH]; [reflexivity|].
  cbn [map flat_map]. rewrite IH. reflexivity.
Qed.

Lemma frame_mod (a b : nat) :
  Nat.modulo a 7 = Nat.modulo b 7 -> frame a = frame b.
Proof. intros H. unfold frame. rewrite H. reflexivity. Qed.

Lemma tick_events_frame (i : nat) : (i < 7)%nat -> tick_events i = frame i.
Proof.
  intros Hi. unfold tick_events, frame, sym. rewrite Nat.mod_small by exact Hi.
  reflexivity.
Qed.

Lemma next_sym_lt (i : nat) : (next_sym i < 7)%nat.
Proof. unfold next_sym. apply Nat.mod_upper_bound. discriminate. Qed.

Lemma path_ticks_frames (h : bytes) :
  forall k i, (i < 7)%nat ->
    path_ticks h k i = flat_map (fun j => HasPath h false :: frame (i + j)) (seq 0 k).
Proof.
  induction k as [|k IH]; intros i Hi; [reflexivity|].
  cbn [path_ticks]. change (seq 0 (S k)) with (0%nat :: seq 1 k).
  cbn [flat_map]. rewrite flat_map_shift, Nat.add_0_r, (tick_events_frame i Hi).
  rewrite (IH (next_sym i) (next_sym_lt i)).
  cbn [List.app]. f_equal. f_equal. apply flat_map_ext. intros j. f_equal.
  apply frame_mod. unfold next_sym. cbn [List.length syms].
  rewrite Nat.Div0.add_mod_idemp_l. f_equal. lia.
Qed.

Lemma receipt_ticks_frames :
  forall n i, (i < 7)%nat ->
    receipt_ticks n i = flat_map (fun j => ReadStatus SENT :: frame (i + j)) (seq 0 n).
Proof.
  induction n as [|n IH]; intros i Hi; [reflexivity|].
  cbn [receipt_ticks]. change (seq 0 (S n)) with (0%nat :: seq 1 n).
  cbn [flat_map]. rewrite flat_map_shift, Nat.add_0_r, (tick_events_frame i Hi).
  rewrite (IH (next_sym i) (next_sym_lt i)).
  cbn [List.app]. f_equal. f_equal. apply flat_map_ext. intros j. f_equal.
  apply frame_mod. unfold next_sym. cbn [List.length syms].
  rewrite Nat.Div0.add_mod_idemp_l. f_equal. lia.
Qed.

(** X12.  Both polling loops show the seven glyphs in turn: the poll in
    vain number [j] (from 0) of a loop sleeps 100 ms and prints two
    backspaces, the glyph [j mod 7] and a space.  The index stays within
    the glyphs, so that [syms[i]] never fails, and the sequence repeats
    every seven polls. *)
Theorem indicator_cycles (w : World) (h : bytes) (fuel : nat) (s : State) :
  (forall k,
     (forall j, (j < k)%nat -> has_path w h (path_queries s + j) = false) ->
     has_path w h (path_queries s + k) = true ->
     (k < fuel)%nat ->
     wait_path w h fuel 0 s =
     Val tt (mkState
               (trace s ++ flat_map (fun j => HasPath h false :: frame j) (seq 0 k)
                ++ [HasPath h true])
               (path_queries s + S k) (status_reads s))) /\
  (forall n,
     (forall j, (j < n)%nat -> status w (status_reads s + j) = SENT) ->
     status w (status_reads s + n) <> SENT ->
     (n < fuel)%nat ->
     wait_receipt w fuel 0 s =
     Val tt (mkState
               (trace s ++ flat_map (fun j => ReadStatus SENT :: frame j) (seq 0 n)
                ++ [ReadStatus (status w (status_reads s + n))])
               (path_queries s) (status_reads s + S n))) /\
  (forall j, In (nth (Nat.modulo j 7) syms "") syms) /\
  (forall j, frame (j + 7) = frame j).
Proof.
  split; [|split; [|split]].
  - intros k Hno Hyes Hk.
    rewrite (wait_path_found w h k fuel 0 s Hno Hyes Hk).
    rewrite (path_ticks_frames h k 0) by lia. reflexivity.
  - intros n Hsent Hnot Hn.
    rewrite (wait_receipt_settled w n fuel 0 s Hsent Hnot Hn).
    rewrite (receipt_ticks_frames n 0) by lia. reflexivity.
  - intros j. apply nth_In. cbn [List.length syms].
    apply Nat.mod_upper_bound. discriminate.
  - intros j. apply frame_mod.
    replace (j + 7)%nat with (j + 1 * 7)%nat by lia.
    apply Nat.Div0.mod_add.
Qed.

Lemma indicator_cycles_witness :
  wait_path Lab.far Lab.hash 9 0 (mkState [] 1 0) =
  Val tt (mkState [HasPath Lab.hash false; Sleep 100;
                   Print (Py.BS ++ Py.BS ++ "⢄" ++ " "); Flush;
                   HasPath Lab.hash false; Sleep 100;
                   Print (Py.BS ++ Py.BS ++ "⢂" ++ " "); Flush;
                   HasPath Lab.hash true] 4 0).
Proof.
  destruct (indicator_cycles Lab.far Lab.hash 9 (mkState [] 1 0)) as [Hpath _].
  rewrite (Hpath 2%nat).
  - reflexivity.
  - intros j Hj. assert (j = 0 \/ j = 1)%nat as [-> | ->] by lia; reflexivity.
  - reflexivity.
  - lia.
Defined.

(** ** The entry point *)

(** X13.  Without a destination, absent or empty, [main] prints an empty
    line, the help and an empty line, and returns: [program_setup] is
    not entered, whatever the other arguments are, a name given alone
    included. *)
Theorem main_without_destination (w : World) (fuel : nat) (help : string)
    (args : Cli.Namespace) :
  Cli.truthy (Cli.destination_hash args) = false ->
  let r := Cli.main w fuel help args init in
  r = Val tt (mkState [Print Py.LF; Print help; Print Py.LF] 0 0) /\
  exit_status r = Some 0.
Proof.
  intros Hdest r.
  assert (Hr : r = Val tt (mkState [Print Py.LF; Print help; Print Py.LF] 0 0)).
  { unfold r, Cli.main, Cli.main_body.
    destruct (Cli.destination_hash args) as [[|c d]|]; try discriminate Hdest;
      step; cbn [List.app init trace]; rewrite append_empty_r; reflexivity. }
  split; [exact Hr|]. rewrite Hr. reflexivity.
Qed.

Lemma main_without_destination_witness :
  Cli.truthy (Cli.destination_hash
                (Cli.mkNamespace None (Some 8) (Some "app.aspect") None 1)) = false /\
  Cli.main Lab.plain 3 "usage" (Cli.mkNamespace None (Some 8) (Some "app.aspect") None 1)
    init
  = Val tt (mkState [Print Py.LF; Print "usage"; Print Py.LF] 0 0).
Proof.
  split; [reflexivity|].
  destruct (main_without_destination Lab.plain 3 "usage"
              (Cli.mkNamespace None (Some 8) (Some "app.aspect") None 1) eq_refl)
    as [Hr _].
  exact Hr.
Defined.

(** No run of [program_setup] ends in a [KeyboardInterrupt]. *)
Lemma run_not_interrupted (w : World) (fuel : nat) (configdir : option string)
    (hex : string) (size : option Z) (full_name : option string) (verbosity : Z)
    (exc : string) (s : State) :
  run w fuel configdir hex size full_name verbosity = Stop (Raise exc) s ->
  (exc =? "KeyboardInterrupt")%string = false.
Proof.
  intros Hrun.
  destruct (run_cases w fuel configdir hex size full_name verbosity)
    as [[msg Hr] | [name [app_name [aspects [hash [_ [_ [_ Hr]]]]]]]];
    rewrite Hr in Hrun.
  - discriminate Hrun.
  - destruct (stops_after_discovery w fuel hash (size_of size) (0 <? verbosity)
                _ _ s Hrun) as [H | [[H _] | [[H _] | [H _]]]];
      try discriminate H; injection H as ->; reflexivity.
Qed.

(** X14.  With a destination, [main] is [program_setup] on the parsed
    arguments, the configuration directory being passed as [None] when
    it is absent or empty.  The handler of [main] changes nothing to the
    outcome: the exit of a refused argument, the exit status 1 of an
    oversized probe and the uncaught exceptions of [program_setup] are
    those of [main]. *)
Theorem main_runs_program (w : World) (fuel : nat) (help : string)
    (args : Cli.Namespace) (c : ascii) (d : string) :
  Cli.destination_hash args = Some (String c d) ->
  let configarg :=
    match Cli.config args with
    | Some (String c' dir) => Some (String c' dir)
    | _ => None
    end in
  Cli.main w fuel help args init =
  run w fuel configarg (String c d) (Cli.size args) (Cli.full_name args)
    (Cli.verbose args).
Proof.
  intros Hdest configarg.
  unfold Cli.main, Cli.main_body. rewrite Hdest.
  assert (Hcfg : (if Cli.truthy (Cli.config args) then Cli.config args else None)
                 = configarg).
  { unfold configarg. destruct (Cli.config args) as [[|c' dir]|]; reflexivity. }
  rewrite Hcfg.
  change (program_setup w fuel configarg (String c d) (Cli.size args)
            (Cli.full_name args) (Cli.verbose args) init)
    with (run w fuel configarg (String c d) (Cli.size args) (Cli.full_name args)
            (Cli.verbose args)).
  destruct (run w fuel configarg (String c d) (Cli.size args) (Cli.full_name args)
              (Cli.verbose args)) as [a s | [code | exc |] s] eqn:E; try reflexivity.
  rewrite (run_not_interrupted w fuel configarg (String c d) (Cli.size args)
             (Cli.full_name args) (Cli.verbose args) exc s E).
  reflexivity.
Qed.

Lemma main_runs_program_witness :
  Cli.main Lab.plain 4 "usage"
    (Cli.mkNamespace (Some "") (Some 600) (Some "app.aspect") (Some Lab.hex) 0) init
  = run Lab.plain 4 None Lab.hex (Some 600) (Some "app.aspect") 0 /\
  exit_status (Cli.main Lab.plain 4 "usage"
                 (Cli.mkNamespace (Some "") (Some 600) (Some "app.aspect")
                    (Some Lab.hex) 0) init) = Some 1.
Proof.
  pose proof (main_runs_program Lab.plain 4 "usage"
                (Cli.mkNamespace (Some "") (Some 600) (Some "app.aspect")
                   (Some Lab.hex) 0)
                "0"%char "00102030405060708090a0b0c0d0e0f" eq_refl) as H.
  split; [exact H|]. rewrite H. reflexivity.
Defined.

(** ** The verbose lookups *)

(** X15.  Without the verbosity flag the next hop and its interface are
    never looked up, in no run and however it ends. *)
Theorem no_lookup_unless_verbose (w : World) (fuel : nat) (configdir : option string)
    (hex : string) (size : option Z) (full_name : option string) (verbosity : Z) :
  verbosity <= 0 ->
  count is_lookup (trace_of (run w fuel configdir hex size full_name verbosity)) = 0%nat.
Proof.
  intros Hv.
  destruct (run_cases w fuel configdir hex size full_name verbosity)
    as [[msg Hr] | [name [app_name [aspects [h [_ [_ [_ Hr]]]]]]]]; rewrite Hr.
  - reflexivity.
  - assert (Hoff : (0 <? verbosity) = false) by (apply Z.ltb_ge; exact Hv).
    rewrite Hoff.
    assert (Hq : adds is_lookup (after_discovery w fuel h (size_of size) false)).
    { unfold after_discovery, more_of. cbv iota. adds_auto. }
    destruct (Hq (mkState (ReticulumInit configdir (3 + (verbosity - 1))
                           :: discovery_events w h) 1 0)) as [d [Ed Cd]].
    rewrite trace_of_state, Ed. cbn [trace].
    change (ReticulumInit configdir (3 + (verbosity - 1)) :: discovery_events w h)
      with ([ReticulumInit configdir (3 + (verbosity - 1))]
            ++ discovery_events w h)%list.
    rewrite !count_app, Cd.
    unfold discovery_events. destruct (has_path w h 0); reflexivity.
Qed.

Lemma no_lookup_unless_verbose_witness :
  0 <= 0 /\
  count is_lookup (trace_of (run Lab.far 9 None Lab.hex None (Some "app.aspect") 0))
  = 0%nat.
Proof.
  split; [discriminate|].
  apply (no_lookup_unless_verbose Lab.far 9 None Lab.hex None (Some "app.aspect") 0).
  discriminate.
Defined.
